(** * Garden-style questionnaire agent: the rule-based core of the
      [/api/agent] route (runAgent, getAskedKeys, chooseNextKey, analyze,
      occurrences, synthesizeSummary, buildPalette, buildFeatures,
      buildUsage), embedded as Rocq functions.

    Strings are [string] (sequences of code units); [toLowerCase] and
    [toUpperCase] act on the ASCII letters and leave every other code unit
    unchanged.  A JavaScript [Set] is a duplicate-free list in insertion
    order (what [Array.from] and [for ... of] observe); an object used as a
    table is an association list in key insertion order (what
    [Object.entries] observes for non-numeric keys). *)

From Stdlib Require Import String Ascii List Bool Arith Lia.
From Stdlib Require Import Sorting.Sorted Sorting.Permutation.
Import ListNotations.
Open Scope list_scope.
Open Scope string_scope.

(* ------------------------------------------------------------------ *)
(** ** Strings *)

Module Str.

Definition isUpper (c : ascii) : bool :=
  let n := nat_of_ascii c in ((65 <=? n) && (n <=? 90))%nat.

Definition isLower (c : ascii) : bool :=
  let n := nat_of_ascii c in ((97 <=? n) && (n <=? 122))%nat.

Definition isDigit (c : ascii) : bool :=
  let n := nat_of_ascii c in ((48 <=? n) && (n <=? 57))%nat.

(** The class [\w] of a regular expression without the [u] and [i] flags. *)
Definition isWordChar (c : ascii) : bool :=
  isUpper c || isLower c || isDigit c || Ascii.eqb c "_".

Definition lowerChar (c : ascii) : ascii :=
  if isUpper c then ascii_of_nat (nat_of_ascii c + 32) else c.

Definition upperChar (c : ascii) : ascii :=
  if isLower c then ascii_of_nat (nat_of_ascii c - 32) else c.

Fixpoint toLowerCase (s : string) : string :=
  match s with
  | EmptyString => EmptyString
  | String c t => String (lowerChar c) (toLowerCase t)
  end.

(** [s.startsWith(p)] *)
Fixpoint startsWith (s p : string) {struct p} : bool :=
  match p, s with
  | EmptyString, _ => true
  | String _ _, EmptyString => false
  | String a p', String b s' => Ascii.eqb a b && startsWith s' p'
  end.

(** [s.includes(needle)] *)
Fixpoint includes (s needle : string) : bool :=
  startsWith s needle ||
  match s with
  | EmptyString => false
  | String _ t => includes t needle
  end.

(** [parts.join(sep)] *)
Fixpoint join (sep : string) (parts : list string) : string :=
  match parts with
  | [] => ""
  | [x] => x
  | x :: rest => x ++ sep ++ join sep rest
  end.

(** [s] without its first [n] characters *)
Fixpoint drop (n : nat) (s : string) : string :=
  match n, s with
  | O, _ => s
  | S _, EmptyString => EmptyString
  | S k, String _ t => drop k t
  end.

(** The longest prefix of [s] made of characters satisfying [p], and the
    rest of [s]. *)
Fixpoint span (p : ascii -> bool) (s : string) : string * string :=
  match s with
  | EmptyString => (EmptyString, EmptyString)
  | String c t =>
      if p c then let '(a, b) := span p t in (String c a, b)
      else (EmptyString, s)
  end.

(** [re.test(s)] for a regular expression that is an alternation of
    literal phrases with no anchors, such as [/enough|done|finish/]: it
    succeeds when one of the phrases occurs in [s]. *)
Definition testAny (alts : list string) (s : string) : bool :=
  existsb (includes s) alts.

End Str.

Import Str.

(** [cap]: [s.charAt(0).toUpperCase() + s.slice(1)] *)
Definition cap (s : string) : string :=
  match s with
  | EmptyString => EmptyString
  | String c t => String (upperChar c) t
  end.

(* ------------------------------------------------------------------ *)
(** ** Sets of strings in insertion order *)

Module SSet.

Definition t := list string.

Definition has (s : t) (x : string) : bool := existsb (String.eqb x) s.

(** [set.add(x)] *)
Definition add (s : t) (x : string) : t := if has s x then s else (s ++ [x])%list.

(** [set.delete(x)] *)
Definition delete (s : t) (x : string) : t :=
  filter (fun y => negb (String.eqb x y)) s.

Definition size (s : t) : nat := List.length s.

End SSet.

(* ------------------------------------------------------------------ *)
(** ** Messages and question keys *)

Inductive Role := user | assistant.

Record Message := { role : Role; content : string }.

Definition isUser (m : Message) : bool :=
  match role m with user => true | assistant => false end.

Inductive QuestionKey :=
  | Kfeels | Kstyle | Kplants | Kuse | Kmaintenance | Ksun | Kclimate
  | Kconstraints.

(** The string each key is at run time. *)
Definition keyName (k : QuestionKey) : string :=
  match k with
  | Kfeels => "feels" | Kstyle => "style" | Kplants => "plants" | Kuse => "use"
  | Kmaintenance => "maintenance" | Ksun => "sun" | Kclimate => "climate"
  | Kconstraints => "constraints"
  end.

Definition QUESTION_ORDER : list QuestionKey :=
  [Kfeels; Kstyle; Kplants; Kuse; Kmaintenance; Ksun; Kclimate; Kconstraints].

Record Question := { key : QuestionKey; text : string }.

Definition QUESTIONS (k : QuestionKey) : Question :=
  match k with
  | Kfeels => {| key := Kfeels; text := "Q-feels: What feelings should your garden evoke? (e.g., calm, cozy, vibrant, playful, refined)" |}
  | Kstyle => {| key := Kstyle; text := "Q-style: What garden styles do you gravitate to? (modern, cottage, Mediterranean, Japanese/Zen, desert/xeriscape, tropical, native/wildlife)" |}
  | Kplants => {| key := Kplants; text := "Q-plants: Any plants you love or dislike? (e.g., lavender, grasses, succulents, ferns, roses, palms)" |}
  | Kuse => {| key := Kuse; text := "Q-use: How will you use the space? (entertaining, dining, kids, pets, quiet reading, growing food)" |}
  | Kmaintenance => {| key := Kmaintenance; text := "Q-maintenance: How much upkeep is realistic? (low, medium, high)" |}
  | Ksun => {| key := Ksun; text := "Q-sun: What sunlight do you get? (full sun, partial shade, mostly shade)" |}
  | Kclimate => {| key := Kclimate; text := "Q-climate: Where are you located or what climate/USDA zone? (coastal, desert, tropical, temperate, cold)" |}
  | Kconstraints => {| key := Kconstraints; text := "Q-constraints: Any constraints? (small space, slope, HOA, water restrictions, budget)" |}
  end.

(** The property names every object literal inherits from
    [Object.prototype]. *)
Definition OBJECT_PROTOTYPE_KEYS : list string :=
  ["constructor"; "__defineGetter__"; "__defineSetter__"; "hasOwnProperty";
   "__lookupGetter__"; "__lookupSetter__"; "isPrototypeOf";
   "propertyIsEnumerable"; "toString"; "valueOf"; "__proto__";
   "toLocaleString"].

(** [key in QUESTIONS]: the [in] operator looks at the object's own keys
    and at those of its prototype chain. *)
Definition inQUESTIONS (k : string) : bool :=
  existsb (String.eqb k) (map keyName QUESTION_ORDER) ||
  existsb (String.eqb k) OBJECT_PROTOTYPE_KEYS.

(** [content.match(/^Q-(\w+):/)], giving the captured group.  [\w+] is
    greedy and the character after it must be [:], which is not a word
    character, so the group is the whole run of word characters after
    [Q-]. *)
Definition matchQTag (s : string) : option string :=
  if startsWith s "Q-" then
    let '(k, rest) := span isWordChar (drop 2 s) in
    match k with
    | EmptyString => None
    | String _ _ => if startsWith rest ":" then Some k else None
    end
  else None.

(** The body of the loop of getAskedKeys.  The set holds strings: the cast
    [match[1] as QuestionKey] is not checked at run time. *)
Definition noteAsked (asked : SSet.t) (m : Message) : SSet.t :=
  match role m with
  | user => asked
  | assistant =>
      match matchQTag (content m) with
      | Some k => if inQUESTIONS k then SSet.add asked k else asked
      | None => asked
      end
  end.

Definition getAskedKeys (messages : list Message) : SSet.t :=
  fold_left noteAsked messages [].

(** [messages.filter(m => m.role === "user").map(m => m.content.toLowerCase()).join("\n")] *)
Definition newline : string := String (ascii_of_nat 10) EmptyString.

Definition userText (messages : list Message) : string :=
  join newline (map (fun m => toLowerCase (content m)) (filter isUser messages)).

(* ------------------------------------------------------------------ *)
(** ** Analysis *)

Record Analysis := {
  styles : list (string * nat);
  mood : SSet.t;
  likedPlants : list string;
  dislikedPlants : list string;
  usage : SSet.t;
  maintenance : option string;
  sunlight : option string;
  climate : option string;
  constraints : SSet.t;
  hasKidsOrPets : bool
}.

Definition STYLE_KEYWORDS : list (string * list string) :=
  [("Modern Minimal", ["modern"; "minimal"; "clean"; "structured"; "architectural"; "contemporary"]);
   ("Cottage Romantic", ["cottage"; "romantic"; "whimsical"; "english"; "abundant"; "flowers"]);
   ("Mediterranean Dry", ["mediterranean"; "olive"; "terracotta"; "dry"; "drought"; "sun-baked"]);
   ("Japanese Zen", ["japanese"; "zen"; "calm"; "raked"; "maple"; "stone"; "moss"]);
   ("Desert Xeriscape", ["desert"; "xeriscape"; "succulent"; "cactus"; "agave"]);
   ("Tropical Lush", ["tropical"; "lush"; "palms"; "banana"; "exotic"]);
   ("Native Wildlife", ["native"; "wildlife"; "pollinator"; "meadow"; "prairie"])].

Definition MOOD_WORDS : list string :=
  ["calm"; "cozy"; "vibrant"; "playful"; "refined"; "relaxed"; "elegant";
   "wild"; "formal"; "romantic"; "rustic"; "serene"; "lush"; "minimal"].

Definition USAGE_WORDS : list string :=
  ["entertaining"; "dining"; "kids"; "children"; "pets"; "dog"; "cat";
   "reading"; "quiet"; "food"; "vegetable"; "veggie"; "bbq"; "grill";
   "firepit"; "hot tub"; "pool"].

Definition CONSTRAINT_WORDS : list string :=
  ["small"; "tiny"; "narrow"; "slope"; "steep"; "hoa"; "water restriction";
   "budget"; "wind"; "deer"; "rabbit"; "privacy"].

Definition SUN_MAP : list (string * string) :=
  [("full sun", "full sun");
   ("lots of sun", "full sun");
   ("sunny", "full sun");
   ("partial shade", "partial shade");
   ("part shade", "partial shade");
   ("dappled", "partial shade");
   ("mostly shade", "shade");
   ("shade", "shade")].

Definition CLIMATE_WORDS : list (string * list string) :=
  [("coastal", ["coastal"; "salt"; "ocean"]);
   ("desert", ["desert"; "arid"; "drought"]);
   ("tropical", ["tropical"; "humid"; "rainforest"]);
   ("temperate", ["temperate"; "mild"]);
   ("cold", ["cold"; "alpine"; "snow"])].

Definition PLANT_SYNONYMS : list (string * list string) :=
  [("lavender", ["lavender"]);
   ("grasses", ["grass"; "grasses"; "panicum"; "miscanthus"]);
   ("succulents", ["succulent"; "succulents"; "agave"; "aloe"; "sedum"]);
   ("ferns", ["fern"; "ferns"]);
   ("roses", ["rose"; "roses"]);
   ("palms", ["palm"; "palms"]);
   ("maples", ["maple"; "acer"]);
   ("conifers", ["pine"; "cedar"; "spruce"; "juniper"]);
   ("wildflowers", ["wildflower"; "echinacea"; "rudbeckia"; "salvia"])].

(** *** occurrences *)

(** The characters of the class [[-/\\^$*+?.()|[\]{}]]. *)
Definition ESCAPED_CHARS : string := "-/\^$*+?.()|[]{}".

Fixpoint memChar (c : ascii) (s : string) : bool :=
  match s with
  | EmptyString => false
  | String d t => Ascii.eqb c d || memChar c t
  end.

(** [needle.replace(/[-/\\^$*+?.()|[\]{}]/g, "\\$&")] *)
Fixpoint escapeRegExp (needle : string) : string :=
  match needle with
  | EmptyString => EmptyString
  | String c t =>
      if memChar c ESCAPED_CHARS then String "\" (String c (escapeRegExp t))
      else String c (escapeRegExp t)
  end.

(** The characters with a meaning of their own in a pattern. *)
Definition SYNTAX_CHARS : string := "\^$.*+?()[]{}|".

(** How [new RegExp(pattern)] reads a pattern made of ordinary characters
    and of backslash-escaped punctuation only: as the literal text it
    matches.  A pattern with an operator in it has no such reading. *)
Fixpoint literalOfPattern (pattern : string) : option string :=
  match pattern with
  | EmptyString => Some EmptyString
  | String c t =>
      if Ascii.eqb c "\" then
        match t with
        | EmptyString => None
        | String d t' =>
            if memChar d ESCAPED_CHARS
            then option_map (String d) (literalOfPattern t')
            else None
        end
      else if memChar c SYNTAX_CHARS then None
      else option_map (String c) (literalOfPattern t)
  end.

(** [(text.match(re) || []).length] for the global pattern matching the
    literal [lit]: the matches are found from left to right and do not
    overlap; after a match the search resumes behind it, one character
    further when the match is empty.  [skip] counts the characters of the
    last match still to be passed. *)
Fixpoint countMatches (lit : string) (skip : nat) (s : string) : nat :=
  match s with
  | EmptyString =>
      match skip with
      | O => if startsWith s lit then 1 else 0
      | S _ => 0
      end
  | String _ t =>
      match skip with
      | S k => countMatches lit k t
      | O =>
          if startsWith s lit then S (countMatches lit (String.length lit - 1) t)
          else countMatches lit 0 t
      end
  end.

Definition occurrences (text needle : string) : nat :=
  match literalOfPattern (escapeRegExp needle) with
  | Some lit => countMatches lit 0 text
  | None => 0
  end.

(** *** analyze *)

(** [styles[style] += count].  The key is always present: the scores are
    initialised from the keys of the same table. *)
Definition bump (scores : list (string * nat)) (k : string) (count : nat)
  : list (string * nat) :=
  map (fun e => if String.eqb (fst e) k then (fst e, snd e + count) else e) scores.

Definition scoreStyles (text : string) : list (string * nat) :=
  fold_left
    (fun scores entry =>
       fold_left (fun scores w => bump scores (fst entry) (occurrences text w))
                 (snd entry) scores)
    STYLE_KEYWORDS
    (map (fun entry => (fst entry, 0)) STYLE_KEYWORDS).

(** [for (const w of words) if (text.includes(w)) set.add(cap(w))] *)
Definition collectWords (words : list string) (text : string) : SSet.t :=
  fold_left (fun acc w => if includes text w then SSet.add acc (cap w) else acc)
            words [].

Definition detectMaintenance (text : string) : option string :=
  if testAny ["low maintenance"; "minimal maintenance"; "no maintenance"; "low upkeep"] text
  then Some "low"
  else if testAny ["medium maintenance"; "some upkeep"] text then Some "medium"
  else if testAny ["high maintenance"; "intensive maintenance"; "love gardening"] text
  then Some "high"
  else None.

Definition detectSunlight (text : string) : option string :=
  fold_left (fun acc kv => if includes text (fst kv) then Some (snd kv) else acc)
            SUN_MAP None.

Definition detectClimate (text : string) : option string :=
  fold_left
    (fun acc kv => if existsb (includes text) (snd kv) then Some (fst kv) else acc)
    CLIMATE_WORDS None.

Definition likes (text : string) (syns : list string) : bool :=
  existsb (fun w => includes text ("love " ++ w) || includes text ("like " ++ w)
                    || includes text w) syns.

Definition dislikes (text : string) (syns : list string) : bool :=
  existsb (fun w => includes text ("dislike " ++ w) || includes text ("hate " ++ w)
                    || includes text ("avoid " ++ w)) syns.

(** The loop over [PLANT_SYNONYMS], pushing onto the two arrays. *)
Definition detectPlants (table : list (string * list string)) (text : string)
  : list string * list string :=
  fold_left
    (fun acc entry =>
       let liked := if likes text (snd entry)
                    then (fst acc ++ [cap (fst entry)])%list else fst acc in
       let disliked := if dislikes text (snd entry)
                       then (snd acc ++ [cap (fst entry)])%list else snd acc in
       (liked, disliked))
    table ([], []).

Definition analyze (messages : list Message) : Analysis :=
  let text := userText messages in
  {| styles := scoreStyles text;
     mood := collectWords MOOD_WORDS text;
     likedPlants := fst (detectPlants PLANT_SYNONYMS text);
     dislikedPlants := snd (detectPlants PLANT_SYNONYMS text);
     usage := collectWords USAGE_WORDS text;
     maintenance := detectMaintenance text;
     sunlight := detectSunlight text;
     climate := detectClimate text;
     constraints := collectWords CONSTRAINT_WORDS text;
     hasKidsOrPets := testAny ["kid"; "child"; "children"; "pet"; "dog"; "cat"] text |}.

(* ------------------------------------------------------------------ *)
(** ** Choosing the next question *)

(** [!x] for a value of type [string | null]. *)
Definition falsy (x : option string) : bool :=
  match x with
  | None => true
  | Some s => String.eqb s ""
  end.

(** The [return] statement of chooseNextKey that is executed. *)
Inductive Path :=
  | NudgePlants | NudgeUse | NudgeSun | NudgeMaintenance | NudgeClimate
  | FirstUnasked (k : QuestionKey)
  | Fallback.

Definition keyOfPath (p : Path) : QuestionKey :=
  match p with
  | NudgePlants => Kplants
  | NudgeUse => Kuse
  | NudgeSun => Ksun
  | NudgeMaintenance => Kmaintenance
  | NudgeClimate => Kclimate
  | FirstUnasked k => k
  | Fallback => Kconstraints
  end.

Definition askedKey (asked : SSet.t) (k : QuestionKey) : bool :=
  SSet.has asked (keyName k).

Definition chooseNextKeyPath (asked : SSet.t) (a : Analysis) : Path :=
  let needSun := falsy (sunlight a) in
  let needMaint := falsy (maintenance a) in
  let needClimate := falsy (climate a) in
  let needPlants := (List.length (likedPlants a) =? 0)%nat
                    && (List.length (dislikedPlants a) =? 0)%nat in
  if needPlants && negb (askedKey asked Kplants) then NudgePlants
  else if hasKidsOrPets a && negb (askedKey asked Kuse) then NudgeUse
  else if needSun && negb (askedKey asked Ksun) then NudgeSun
  else if needMaint && negb (askedKey asked Kmaintenance) then NudgeMaintenance
  else if needClimate && negb (askedKey asked Kclimate) then NudgeClimate
  else match find (fun k => negb (askedKey asked k)) QUESTION_ORDER with
       | Some k => FirstUnasked k
       | None => Fallback
       end.

Definition chooseNextKey (asked : SSet.t) (a : Analysis) : QuestionKey :=
  keyOfPath (chooseNextKeyPath asked a).

(* ------------------------------------------------------------------ *)
(** ** Summary *)

Module Summary.
Record t := {
  styles : list string;
  moodWords : list string;
  plantPalette : list string;
  features : list string;
  usagePlan : list string;
  sunlight : option string;
  maintenance : option string;
  climate : option string;
  notes : list string
}.
End Summary.

Definition GardenSummary := Summary.t.

(** [entries.sort((a, b) => b[1] - a[1])]: the sort is stable, and an
    entry goes behind another one only when its score is smaller. *)
Fixpoint insertByScore (x : string * nat) (l : list (string * nat))
  : list (string * nat) :=
  match l with
  | [] => [x]
  | y :: rest =>
      if (snd x <? snd y)%nat then y :: insertByScore x rest else x :: l
  end.

Definition sortByScore (entries : list (string * nat)) : list (string * nat) :=
  fold_right insertByScore [] entries.

Definition holds (x : option string) (v : string) : bool :=
  match x with
  | Some s => String.eqb s v
  | None => false
  end.

Definition addAll (items : SSet.t) (values : list string) : SSet.t :=
  fold_left SSet.add values items.

(** The [switch] of buildPalette. *)
Definition paletteOf (style : string) : list string :=
  if String.eqb style "Modern Minimal" then
    ["Evergreen structure: Buxus balls, Podocarpus, clipped yew";
     "Grasses: Miscanthus, Pennisetum for movement";
     "Monochrome perennials: White Agapanthus, Salvia, Gaura"]
  else if String.eqb style "Cottage Romantic" then
    ["Perennials: Lavender, Nepeta, Salvia, Echinacea, Foxglove";
     "Roses and climbers: David Austin roses, Clematis";
     "Soft grasses: Deschampsia, Stipa tenuissima"]
  else if String.eqb style "Mediterranean Dry" then
    ["Drought-tolerant: Olive, Rosemary, Lavender, Santolina";
     "Silvery foliage: Helichrysum, Artemisia";
     "Herbs and citrus in terracotta"]
  else if String.eqb style "Japanese Zen" then
    ["Structure: Japanese maple, Bamboo (clumping), Pine cloud-pruned";
     "Ground: Moss, Ophiopogon, Ferns";
     "Accents: Irises, Azaleas"]
  else if String.eqb style "Desert Xeriscape" then
    ["Succulents: Agave, Aloe, Echeveria, Opuntia";
     "Cacti & yucca; gravel mulch";
     "Heat-lovers: Red hot poker, Verbena bonariensis"]
  else if String.eqb style "Tropical Lush" then
    ["Foliage drama: Bananas, Colocasia, Alocasia, Philodendron (hardy types)";
     "Palms: Trachycarpus, Chamaerops";
     "Bold color: Canna, Hibiscus"]
  else if String.eqb style "Native Wildlife" then
    ["Natives: Echinacea, Rudbeckia, Solidago, Asclepias";
     "Grasses: Little bluestem, Switchgrass";
     "Shrubs: Serviceberry, Viburnum"]
  else [].

(** The strings buildPalette adds for the sunlight, the maintenance level
    and the climate. *)
Definition adjustments (a : Analysis) : list string :=
  ((if holds (sunlight a) "shade"
    then ["Shade lovers: Hosta, Ferns, Heuchera, Astilbe, Hellebore"]
    else if holds (sunlight a) "partial shade"
    then ["Part-shade adaptable: Hydrangea, Heucherella, Brunnera, Tiarella"]
    else if holds (sunlight a) "full sun"
    then ["Sun lovers: Salvia, Nepeta, Gaura, Coreopsis, Achillea"]
    else [])
   ++ (if holds (maintenance a) "low"
       then ["Low-maintenance backbone: evergreen shrubs, groundcovers, mulch"]
       else [])
   ++ (if holds (climate a) "coastal"
       then ["Coastal tolerant: Armeria, Sea kale, Escallonia"] else [])
   ++ (if holds (climate a) "cold"
       then ["Cold-hardy focus: conifers, grasses, perennials to zone"] else [])
   ++ (if holds (climate a) "desert"
       then ["Ultra drought: Agastache, Salvia greggii, Teucrium"] else []))%list.

Definition buildPalette (styles : list string) (a : Analysis) : list string :=
  let items := fold_left (fun items style => addAll items (paletteOf style)) styles [] in
  let items := addAll items (adjustments a) in
  let items := addAll items (likedPlants a) in
  fold_left SSet.delete (dislikedPlants a) items.

Definition inList (x : string) (l : list string) : bool := existsb (String.eqb x) l.

Definition when (b : bool) (v : string) : list string := if b then [v] else [].

Definition buildFeatures (styles : list string) (a : Analysis) : list string :=
  let items := addAll []
    (when (inList "Modern Minimal" styles) "Clean pavers with steel edging and lighting"
     ++ when (inList "Cottage Romantic" styles) "Meandering path, arch with climbers, rustic seating"
     ++ when (inList "Mediterranean Dry" styles) "Gravel terrace, terracotta pots, simple pergola"
     ++ when (inList "Japanese Zen" styles) "Stone basin, gravel raked area, timber deck"
     ++ when (inList "Desert Xeriscape" styles) "Rock garden mounds, boulders, decomposed granite"
     ++ when (inList "Tropical Lush" styles) "Shaded seating, water feature, layered canopy"
     ++ when (inList "Native Wildlife" styles) "Pollinator bed, bird bath, meadow edge"
     ++ when (holds (maintenance a) "low") "Drip irrigation and weed-suppressing mulch"
     ++ when (holds (sunlight a) "full sun") "Shade sail or pergola for hot afternoons"
     ++ when (hasKidsOrPets a) "Durable lawn alternative and pet-safe, kid-friendly plants")%list in
  if existsb (fun u => testAny ["entertain"; "dining"; "bbq"; "grill"; "firepit";
                                "hot tub"; "pool"; "reading"; "quiet"; "food";
                                "vegetable"] (toLowerCase u)) (usage a)
  then
    fold_left
      (fun items u =>
         let l := toLowerCase u in
         addAll items
           (when (testAny ["entertain"; "dining"; "bbq"; "grill"] l) "Dining terrace near kitchen and grill zone"
            ++ when (testAny ["firepit"] l) "Fire pit with circular seating"
            ++ when (testAny ["hot tub"; "pool"] l) "Privacy planting around water features"
            ++ when (testAny ["reading"; "quiet"] l) "Quiet nook with bench and screening"
            ++ when (testAny ["food"; "vegetable"; "veggie"] l) "Compact raised beds for edibles")%list)
      (usage a) items
  else items.

Definition buildUsage (a : Analysis) : list string :=
  let out := addAll [] (usage a) in
  let out := if hasKidsOrPets a
             then SSet.add out "Safe play and pet circulation considered" else out in
  match out with
  | [] => SSet.add out "Relaxation and light entertaining"
  | _ :: _ => out
  end.

Definition topStyles (a : Analysis) : list string :=
  let stylesRanked := sortByScore (styles a) in
  map fst (firstn 2 (filter (fun e => (0 <? snd e)%nat) stylesRanked)).

Definition synthesizeSummary (a : Analysis) : GardenSummary :=
  let top := topStyles a in
  let fallback := match top with [] => ["Contemporary Natural"] | _ :: _ => top end in
  let notes :=
    ((match dislikedPlants a with
      | [] => []
      | _ :: _ => [("Avoid: " ++ join ", " (dislikedPlants a))%string]
      end)
     ++ (match constraints a with
         | [] => []
         | _ :: _ => [("Constraints: " ++ join ", " (constraints a))%string]
         end))%list in
  {| Summary.styles := fallback;
     Summary.moodWords := match mood a with [] => ["Calm"; "Welcoming"] | _ :: _ => mood a end;
     Summary.plantPalette := buildPalette fallback a;
     Summary.features := buildFeatures fallback a;
     Summary.usagePlan := buildUsage a;
     Summary.sunlight := sunlight a;
     Summary.maintenance := maintenance a;
     Summary.climate := climate a;
     Summary.notes := notes |}.

(* ------------------------------------------------------------------ *)
(** ** runAgent *)

Record AgentResult := {
  done : bool;
  nextQuestion : option string;
  summary : option GardenSummary
}.

Definition END_PHRASES : list string :=
  ["that's all"; "that is all"; "enough"; "done"; "finish"].

Definition runAgent (messages : list Message) : AgentResult :=
  let asked := getAskedKeys messages in
  let analysis := analyze messages in
  let userText := userText messages in
  let doneBySignal := testAny END_PHRASES userText in
  let doneByCoverage := (6 <=? SSet.size asked)%nat in
  if doneBySignal || doneByCoverage then
    {| done := true;
       summary := Some (synthesizeSummary analysis);
       nextQuestion := None |}
  else
    let nextKey := chooseNextKey asked analysis in
    {| done := false;
       nextQuestion := Some (text (QUESTIONS nextKey));
       summary := None |}.

(* ------------------------------------------------------------------ *)
(** ** Notions used to state the properties *)

(** The last entry of a table, in its order, that satisfies [p]. *)
Definition lastMatching {A : Type} (p : A -> bool) (table : list A) : option A :=
  hd_error (rev (filter p table)).

(** The two ways runAgent finishes a conversation. *)
Definition doneBySignal (messages : list Message) : bool :=
  testAny END_PHRASES (userText messages).

Definition doneByCoverage (messages : list Message) : bool :=
  (6 <=? SSet.size (getAskedKeys messages))%nat.

(** The question keys, in the fixed order, whose tag [Q-<key>:] opens an
    assistant message. *)
Definition taggedQuestionKeys (messages : list Message) : list QuestionKey :=
  filter
    (fun k =>
       existsb (fun m => negb (isUser m) &&
                         match matchQTag (content m) with
                         | Some tag => String.eqb tag (keyName k)
                         | None => false
                         end) messages)
    QUESTION_ORDER.

(** The Analysis with no signal in it. *)
Definition noSignal : Analysis :=
  {| styles := [("Modern Minimal", 0); ("Cottage Romantic", 0);
                ("Mediterranean Dry", 0); ("Japanese Zen", 0);
                ("Desert Xeriscape", 0); ("Tropical Lush", 0);
                ("Native Wildlife", 0)];
     mood := [];
     likedPlants := [];
     dislikedPlants := [];
     usage := [];
     maintenance := None;
     sunlight := None;
     climate := None;
     constraints := [];
     hasKidsOrPets := false |}.

(** The sum of the occurrence counts of a style's keywords. *)
Definition keywordHits (text : string) (words : list string) : nat :=
  list_sum (map (fun w => countMatches w 0 text) words).

Definition scoreIs (n : nat) (e : string * nat) : bool := (snd e =? n)%nat.

(** What the summary asks of the ranked entries: scores go down, and the
    entries with one score keep the order they have in the table. *)
Definition isRanking (entries ranked : list (string * nat)) : Prop :=
  StronglySorted (fun x y => snd y <= snd x) ranked /\
  forall n, filter (scoreIs n) ranked = filter (scoreIs n) entries.

(** The suggestion strings buildPalette adds: those of the selected
    styles, then those for sunlight, maintenance and climate. *)
Definition suggestions (selected : list string) (a : Analysis) : list string :=
  (flat_map paletteOf selected ++ adjustments a)%list.

(** An entry comes from a plant when it mentions, in any letter case, one
    of the plant's synonyms. *)
Definition derivedFrom (plant entry : string) : bool :=
  existsb (fun e => String.eqb (cap (fst e)) plant
                    && existsb (includes (toLowerCase entry)) (snd e))
          PLANT_SYNONYMS.

Definition rosesSuggestion : string :=
  "Roses and climbers: David Austin roses, Clematis".

(** Every name the [in] test of getAskedKeys accepts. *)
Definition ACCEPTED_TAGS : list string :=
  (map keyName QUESTION_ORDER ++ OBJECT_PROTOTYPE_KEYS)%list.

(** The exchange the page drives when every request is answered before the
    next one is sent: the agent's question is appended as an assistant
    message, the user's reply as a user message, and the agent is asked
    again, until it answers with a summary or the replies run out. *)
Fixpoint converse (messages : list Message) (replies : list string)
  : list Message :=
  match nextQuestion (runAgent messages) with
  | None => messages
  | Some q =>
      match replies with
      | [] => (messages ++ [{| role := assistant; content := q |}])%list
      | r :: rest =>
          converse (messages ++ [{| role := assistant; content := q |};
                                 {| role := user; content := r |}])%list rest
      end
  end.

(** A phrase that can occur inside one line: not empty, no line break. *)
Definition lineBreak : ascii := ascii_of_nat 10.

Definition inLine (w : string) : bool :=
  negb (String.eqb w "") && negb (memChar lineBreak w).

(** The lowercased contents of the user messages, one per part of the
    joined text. *)
Definition userLines (messages : list Message) : list string :=
  map (fun m => toLowerCase (content m)) (filter isUser messages).

(** The summary of an Analysis with no signal in it. *)
Definition plainSummary : GardenSummary :=
  {| Summary.styles := ["Contemporary Natural"];
     Summary.moodWords := ["Calm"; "Welcoming"];
     Summary.plantPalette := [];
     Summary.features := [];
     Summary.usagePlan := ["Relaxation and light entertaining"];
     Summary.sunlight := None;
     Summary.maintenance := None;
     Summary.climate := None;
     Summary.notes := [] |}.

(** A list of strings without a repeated entry. *)
Fixpoint distinct (l : list string) : bool :=
  match l with
  | [] => true
  | x :: rest => negb (inList x rest) && distinct rest
  end.

(** The name a plant of PLANT_SYNONYMS is listed under. *)
Definition plantName (entry : string * list string) : string := cap (fst entry).

(** One of the synonyms occurs in the text. *)
Definition mentions (text : string) (syns : list string) : bool :=
  existsb (includes text) syns.

(** Two texts in which every phrase without a line break occurs in the
    one when it occurs in the other, and as many times. *)
Definition sameSignals (text1 text2 : string) : Prop :=
  forall w, inLine w = true ->
            includes text1 w = includes text2 w
            /\ countMatches w 0 text1 = countMatches w 0 text2.

(** Every character of the string satisfies [p]. *)
Fixpoint allChars (p : ascii -> bool) (s : string) : bool :=
  match s with
  | EmptyString => true
  | String c t => p c && allChars p t
  end.

(** The string with its ASCII letters in upper case. *)
Fixpoint toUpperCase (s : string) : string :=
  match s with
  | EmptyString => EmptyString
  | String c t => String (upperChar c) (toUpperCase t)
  end.

(** Two messages that differ in the case of ASCII letters only. *)
Definition sameUpToCase (m m' : Message) : Prop :=
  role m = role m' /\ toUpperCase (content m) = toUpperCase (content m').

(** [n] copies of [s] in a row. *)
Fixpoint copies (n : nat) (s : string) : string :=
  match n with
  | O => EmptyString
  | S k => s ++ copies k s
  end.

(* ------------------------------------------------------------------ *)
(** ** Facts about substrings *)

Lemma append_assoc (a b c : string) : (a ++ b) ++ c = a ++ b ++ c.
Proof. induction a as [|x a IH]; simpl; [reflexivity | now rewrite IH]. Qed.

Lemma append_empty_r (a : string) : a ++ "" = a.
Proof. induction a as [|x a IH]; simpl; [reflexivity | now rewrite IH]. Qed.

Lemma startsWith_spec (s p : string) :
  startsWith s p = true <-> exists r, s = p ++ r.
Proof.
  revert s; induction p as [|a p IH]; intros s; simpl.
  - split; [intros _; now exists s | reflexivity].
  - destruct s as [|b s].
    + split; [discriminate | intros [r Hr]; discriminate].
    + rewrite andb_true_iff, Ascii.eqb_eq, IH. split.
      * intros [-> [r ->]]. now exists r.
      * intros [r Hr]. injection Hr as -> ->. split; [reflexivity | now exists r].
Qed.

Lemma includes_spec (s needle : string) :
  includes s needle = true <-> exists a b, s = a ++ needle ++ b.
Proof.
  induction s as [|c s IH]; simpl.
  - rewrite orb_false_r, (startsWith_spec "" needle). split.
    + intros [r Hr]. now exists "", r.
    + intros [a [b H]]. destruct a; [now exists b | discriminate].
  - rewrite orb_true_iff, IH, (startsWith_spec (String c s) needle). split.
    + intros [[r Hr] | [a [b H]]].
      * now exists "", r.
      * exists (String c a), b. simpl. now rewrite H.
    + intros [a [b H]]. destruct a as [|x a]; simpl in H.
      * left. now exists b.
      * right. injection H as _ H. now exists a, b.
Qed.

(** A text that holds a phrase holds every part of the phrase. *)
Lemma includes_trans (s m n : string) :
  includes s m = true -> includes m n = true -> includes s n = true.
Proof.
  rewrite !includes_spec. intros [a [b ->]] [c [d ->]].
  exists (a ++ c), (d ++ b). now rewrite !append_assoc.
Qed.

Lemma includes_suffix (p w : string) : includes (p ++ w) w = true.
Proof. apply includes_spec. exists p, "". now rewrite append_empty_r. Qed.

Lemma includes_app_l (s r n : string) :
  includes s n = true -> includes (s ++ r) n = true.
Proof.
  rewrite !includes_spec. intros [a [b ->]].
  exists a, (b ++ r). now rewrite !append_assoc.
Qed.

Lemma includes_empty (n : string) : includes "" n = true -> n = "".
Proof. destruct n; simpl; [reflexivity | discriminate]. Qed.

(* ------------------------------------------------------------------ *)
(** ** Plants: dislike phrases and bare synonyms *)

Lemma dislikes_likes (text : string) (syns : list string) :
  dislikes text syns = true -> likes text syns = true.
Proof.
  unfold dislikes, likes. rewrite !existsb_exists.
  intros [w [Hin H]]. exists w. split; [assumption|].
  rewrite !orb_true_iff in H. rewrite !orb_true_iff. right.
  destruct H as [[H | H] | H];
    (eapply includes_trans; [exact H | apply includes_suffix]).
Qed.

Lemma detectPlants_step_incl (text : string) (table : list (string * list string)) :
  forall acc : list string * list string,
    incl (snd acc) (fst acc) ->
    let r := fold_left
      (fun acc entry =>
         let liked := if likes text (snd entry)
                      then (fst acc ++ [cap (fst entry)])%list else fst acc in
         let disliked := if dislikes text (snd entry)
                         then (snd acc ++ [cap (fst entry)])%list else snd acc in
         (liked, disliked)) table acc in
    incl (snd r) (fst r).
Proof.
  induction table as [|e table IH]; intros acc Hacc; simpl; [assumption|].
  apply IH. simpl.
  destruct (dislikes text (snd e)) eqn:Hd.
  - rewrite (dislikes_likes _ _ Hd). intros x Hx.
    apply in_app_or in Hx. apply in_or_app.
    destruct Hx as [Hx | Hx]; [left; now apply Hacc | now right].
  - destruct (likes text (snd e)); intros x Hx; [apply in_or_app; left|]; now apply Hacc.
Qed.

Lemma detectPlants_incl (table : list (string * list string)) (text : string) :
  incl (snd (detectPlants table text)) (fst (detectPlants table text)).
Proof. apply (detectPlants_step_incl text table ([], [])). intros x []. Qed.

(** Every detected plant is the capitalised name of an entry of the table. *)
Lemma detectPlants_names (table : list (string * list string)) (text : string) :
  incl (fst (detectPlants table text)) (map (fun e => cap (fst e)) table) /\
  incl (snd (detectPlants table text)) (map (fun e => cap (fst e)) table).
Proof.
  unfold detectPlants.
  assert (G : forall (seen : list (string * list string)) tbl acc,
             incl (fst acc) (map (fun e => cap (fst e)) seen) ->
             incl (snd acc) (map (fun e => cap (fst e)) seen) ->
             let r := fold_left
               (fun acc entry =>
                  let liked := if likes text (snd entry)
                               then (fst acc ++ [cap (fst entry)])%list else fst acc in
                  let disliked := if dislikes text (snd entry)
                                  then (snd acc ++ [cap (fst entry)])%list else snd acc in
                  (liked, disliked)) tbl acc in
             incl (fst r) (map (fun e => cap (fst e)) (seen ++ tbl)) /\
             incl (snd r) (map (fun e => cap (fst e)) (seen ++ tbl))).
  { intros seen tbl; revert seen.
    induction tbl as [|e tbl IH]; intros seen acc H1 H2; simpl.
    - now rewrite app_nil_r.
    - replace (seen ++ e :: tbl)%list with ((seen ++ [e]) ++ tbl)%list
        by (now rewrite <- app_assoc).
      apply IH; simpl; rewrite map_app; simpl.
      + destruct (likes text (snd e)); intros x Hx.
        * apply in_app_or in Hx. apply in_or_app.
          destruct Hx as [Hx | Hx]; [left; now apply H1 | now right].
        * apply in_or_app; left; now apply H1.
      + destruct (dislikes text (snd e)); intros x Hx.
        * apply in_app_or in Hx. apply in_or_app.
          destruct Hx as [Hx | Hx]; [left; now apply H2 | now right].
        * apply in_or_app; left; now apply H2. }
  apply (G [] table ([], [])); intros x [].
Qed.

(** C10.  For every message list, every plant of the analysis's
    [dislikedPlants] is also in its [likedPlants]: a dislike phrase
    ("dislike w", "hate w", "avoid w") in the user text brings the bare
    synonym [w] with it, and the like test accepts a bare synonym. *)
Theorem C10_disliked_plants_are_liked :
  forall (messages : list Message) (plant : string),
    In plant (dislikedPlants (analyze messages)) ->
    In plant (likedPlants (analyze messages)).
Proof.
  intros messages plant.
  exact (detectPlants_incl PLANT_SYNONYMS (userText messages) plant).
Qed.

Lemma C10_witness :
  In "Roses" (likedPlants (analyze [{| role := user; content := "I hate roses" |}])).
Proof.
  apply (C10_disliked_plants_are_liked
           [{| role := user; content := "I hate roses" |}] "Roses").
  vm_compute. left. reflexivity.
Defined.

(* ------------------------------------------------------------------ *)
(** ** Sunlight *)

Lemma overwrite_last {A B : Type} (p : A -> bool) (f : A -> B) (table : list A) :
  forall init : option B,
    fold_left (fun acc x => if p x then Some (f x) else acc) table init =
    match lastMatching p table with
    | Some x => Some (f x)
    | None => init
    end.
Proof.
  unfold lastMatching.
  induction table as [|x table IH] using rev_ind; intros init; [reflexivity|].
  rewrite fold_left_app, filter_app, rev_app_distr. simpl.
  destruct (p x); simpl; [reflexivity | apply IH].
Qed.

Lemma lastMatching_none {A : Type} (p : A -> bool) (table : list A) :
  (forall x, In x table -> p x = false) -> lastMatching p table = None.
Proof.
  intros H. unfold lastMatching.
  replace (filter p table) with (@nil A); [reflexivity|].
  induction table as [|x table IH]; simpl; [reflexivity|].
  rewrite (H x) by now left. apply IH. intros y Hy. apply H. now right.
Qed.

(** C2.  Sunlight extraction walks SUN_MAP in its definition order and the
    last matching phrase wins; with no phrase in the lowercased user text
    the sunlight is null; a text holding both "full sun" and "mostly shade"
    gives "shade". *)
Theorem C2_sunlight_last_match_wins :
  forall messages : list Message,
    let text := userText messages in
    sunlight (analyze messages) =
      option_map snd (lastMatching (fun kv => includes text (fst kv)) SUN_MAP)
    /\ ((forall phrase level, In (phrase, level) SUN_MAP -> includes text phrase = false) ->
        sunlight (analyze messages) = None)
    /\ (includes text "full sun" = true -> includes text "mostly shade" = true ->
        sunlight (analyze messages) = Some "shade").
Proof.
  intros messages text.
  assert (E : sunlight (analyze messages) =
              option_map snd (lastMatching (fun kv => includes text (fst kv)) SUN_MAP)).
  { simpl. unfold detectSunlight. fold text.
    rewrite (overwrite_last (fun kv => includes text (fst kv)) snd SUN_MAP None).
    now destruct (lastMatching _ SUN_MAP). }
  split; [exact E|]. split.
  - intros H. rewrite E, lastMatching_none; [reflexivity|].
    intros [phrase level] Hin. now apply (H phrase level).
  - intros _ Hshade. rewrite E.
    assert (Hs : includes text "shade" = true)
      by (eapply includes_trans; [exact Hshade | reflexivity]).
    unfold lastMatching, SUN_MAP. cbn [filter fst].
    rewrite Hs, Hshade.
    repeat match goal with |- context [if ?b then _ else _] => destruct b end;
      reflexivity.
Qed.

Lemma C2_witness :
  sunlight (analyze [{| role := user; content := "Full sun at noon, mostly shade later" |}])
    = Some "shade"
  /\ sunlight (analyze [{| role := user; content := "No idea" |};
                        {| role := assistant; content := "full sun or shade?" |}]) = None.
Proof.
  split.
  - apply (C2_sunlight_last_match_wins
             [{| role := user; content := "Full sun at noon, mostly shade later" |}]);
      reflexivity.
  - apply (C2_sunlight_last_match_wins
             [{| role := user; content := "No idea" |};
              {| role := assistant; content := "full sun or shade?" |}]).
    intros phrase level Hin. simpl in Hin.
    repeat (destruct Hin as [Hin | Hin]; [injection Hin as <- <-; reflexivity|]).
    destruct Hin.
Defined.

(* ------------------------------------------------------------------ *)
(** ** Only the user's messages are analysed *)

Lemma userText_contents (messages : list Message) :
  userText messages =
  join newline (map toLowerCase (map content (filter isUser messages))).
Proof. unfold userText. now rewrite map_map. Qed.

(** C8.  analyze depends on the user-authored messages only: two message
    lists whose user messages have the same contents in the same order get
    the same Analysis, whatever the assistant messages say. *)
Theorem C8_analyze_reads_user_messages_only :
  forall messages1 messages2 : list Message,
    map content (filter isUser messages1) = map content (filter isUser messages2) ->
    analyze messages1 = analyze messages2.
Proof.
  intros messages1 messages2 H. unfold analyze.
  rewrite (userText_contents messages1), (userText_contents messages2), H.
  reflexivity.
Qed.

Lemma C8_witness :
  analyze [{| role := assistant; content := "Q-sun: full sun, roses, kids?" |};
           {| role := user; content := "Mostly shade" |}]
  = analyze [{| role := user; content := "Mostly shade" |};
             {| role := assistant; content := "I love gardening in the desert" |}].
Proof.
  apply (C8_analyze_reads_user_messages_only
           [{| role := assistant; content := "Q-sun: full sun, roses, kids?" |};
            {| role := user; content := "Mostly shade" |}]
           [{| role := user; content := "Mostly shade" |};
            {| role := assistant; content := "I love gardening in the desert" |}]).
  reflexivity.
Defined.

(* ------------------------------------------------------------------ *)
(** ** The asked-key set *)

Lemma has_In (s : SSet.t) (x : string) : SSet.has s x = true <-> In x s.
Proof.
  unfold SSet.has. rewrite existsb_exists. split.
  - intros [y [Hy E]]. apply String.eqb_eq in E. now subst.
  - intros H. exists x. split; [assumption | apply String.eqb_refl].
Qed.

Lemma add_In (s : SSet.t) (x y : string) :
  In y (SSet.add s x) <-> In y s \/ y = x.
Proof.
  unfold SSet.add. destruct (SSet.has s x) eqn:E.
  - apply has_In in E. split; [now left | intros [H | ->]; assumption].
  - rewrite in_app_iff. simpl. split; intros [H | H]; auto.
    + destruct H as [H | []]; auto.
Qed.

Lemma add_NoDup (s : SSet.t) (x : string) : NoDup s -> NoDup (SSet.add s x).
Proof.
  intros H. unfold SSet.add. destruct (SSet.has s x) eqn:E; [assumption|].
  assert (Hx : ~ In x s) by (rewrite <- has_In, E; discriminate).
  clear E. induction H as [|y s Hy Hs IH]; simpl.
  - constructor; [intros [] | constructor].
  - constructor.
    + rewrite in_app_iff. simpl. intros [H | [H | []]]; [now apply Hy|].
      apply Hx. now left.
    + apply IH. intros H. apply Hx. now right.
Qed.

Lemma add_size (s : SSet.t) (x : string) : SSet.size s <= SSet.size (SSet.add s x).
Proof.
  unfold SSet.add, SSet.size. destruct (SSet.has s x); [lia|].
  rewrite length_app. lia.
Qed.

Lemma noteAsked_size (asked : SSet.t) (m : Message) :
  SSet.size asked <= SSet.size (noteAsked asked m).
Proof.
  unfold noteAsked. destruct (role m); [lia|].
  destruct (matchQTag (content m)) as [k|]; [|lia].
  destruct (inQUESTIONS k); [apply add_size | lia].
Qed.

Lemma noteAsked_fold_size (messages : list Message) :
  forall asked, SSet.size asked <= SSet.size (fold_left noteAsked messages asked).
Proof.
  induction messages as [|m messages IH]; intros asked; simpl; [lia|].
  etransitivity; [apply noteAsked_size | apply IH].
Qed.

(** Appending messages only grows the asked-key set. *)
Lemma getAskedKeys_app_size (messages extra : list Message) :
  SSet.size (getAskedKeys messages) <= SSet.size (getAskedKeys (messages ++ extra)).
Proof.
  unfold getAskedKeys. rewrite fold_left_app. apply noteAsked_fold_size.
Qed.

(** A key is in the set exactly when an assistant message carries its tag
    and the [in] test accepts it. *)
Lemma noteAsked_fold_In (messages : list Message) :
  forall asked k,
    In k (fold_left noteAsked messages asked) <->
    In k asked \/
    exists m, In m messages /\ role m = assistant /\
              matchQTag (content m) = Some k /\ inQUESTIONS k = true.
Proof.
  induction messages as [|m messages IH]; intros asked k; simpl.
  - split; [now left | intros [H | [m [[] _]]]; assumption].
  - rewrite IH. unfold noteAsked at 1. split.
    + intros [H | [m' [Hin H]]]; [|right; exists m'; split; [now right | assumption]].
      destruct (role m) eqn:Er; [now left|].
      destruct (matchQTag (content m)) as [k'|] eqn:Em; [|now left].
      destruct (inQUESTIONS k') eqn:Eq; [|now left].
      apply add_In in H. destruct H as [H | ->]; [now left|].
      right. exists m. repeat split; auto.
    + intros [H | [m' [[<- | Hin] [Er [Em Eq]]]]].
      * left. destruct (role m); [assumption|].
        destruct (matchQTag (content m)) as [k'|]; [|assumption].
        destruct (inQUESTIONS k'); [|assumption]. apply add_In. now left.
      * left. rewrite Er, Em, Eq. apply add_In. now right.
      * right. exists m'. repeat split; auto.
Qed.

Lemma getAskedKeys_In (messages : list Message) (k : string) :
  In k (getAskedKeys messages) <->
  exists m, In m messages /\ role m = assistant /\
            matchQTag (content m) = Some k /\ inQUESTIONS k = true.
Proof.
  unfold getAskedKeys. rewrite noteAsked_fold_In. split; [|now right].
  intros [[] | H]; assumption.
Qed.

Lemma getAskedKeys_NoDup (messages : list Message) : NoDup (getAskedKeys messages).
Proof.
  unfold getAskedKeys.
  assert (G : forall asked, NoDup asked -> NoDup (fold_left noteAsked messages asked)).
  { induction messages as [|m messages IH]; intros asked H; simpl; [assumption|].
    apply IH. unfold noteAsked. destruct (role m); [assumption|].
    destruct (matchQTag (content m)) as [k|]; [|assumption].
    destruct (inQUESTIONS k); [now apply add_NoDup | assumption]. }
  apply G. constructor.
Qed.

(* ------------------------------------------------------------------ *)
(** ** Completion *)

Lemma runAgent_done (messages : list Message) :
  done (runAgent messages) = doneBySignal messages || doneByCoverage messages.
Proof.
  unfold runAgent, doneBySignal, doneByCoverage.
  now destruct (testAny END_PHRASES (userText messages)
                || (6 <=? SSet.size (getAskedKeys messages))%nat).
Qed.

(** A finished conversation carries a summary and no question; an
    unfinished one carries a question and no summary. *)
Lemma runAgent_shape (messages : list Message) :
  (done (runAgent messages) = true ->
   summary (runAgent messages) = Some (synthesizeSummary (analyze messages)) /\
   nextQuestion (runAgent messages) = None) /\
  (done (runAgent messages) = false ->
   nextQuestion (runAgent messages) =
     Some (text (QUESTIONS (chooseNextKey (getAskedKeys messages) (analyze messages)))) /\
   summary (runAgent messages) = None).
Proof.
  unfold runAgent.
  destruct (testAny END_PHRASES (userText messages)
            || (6 <=? SSet.size (getAskedKeys messages))%nat);
    cbn [done summary nextQuestion]; split; intros H;
    try discriminate H; split; reflexivity.
Qed.

Lemma keyName_inj (k1 k2 : QuestionKey) : keyName k1 = keyName k2 -> k1 = k2.
Proof. destruct k1, k2; simpl; intros H; try reflexivity; discriminate. Qed.

Lemma keyName_inQUESTIONS (k : QuestionKey) : inQUESTIONS (keyName k) = true.
Proof. now destruct k. Qed.

Lemma QUESTION_ORDER_NoDup : NoDup QUESTION_ORDER.
Proof.
  unfold QUESTION_ORDER.
  repeat (constructor; [simpl; intros H; repeat (destruct H as [H | H]; [discriminate|]); exact H|]).
  constructor.
Qed.

Lemma map_inj_NoDup {A B : Type} (f : A -> B) (l : list A) :
  (forall x y, f x = f y -> x = y) -> NoDup l -> NoDup (map f l).
Proof.
  intros Hf H. induction H as [|x l Hx Hl IH]; simpl; constructor; [|assumption].
  rewrite in_map_iff. intros [y [E Hy]]. apply Hf in E. now subst.
Qed.

Lemma filter_NoDup {A : Type} (p : A -> bool) (l : list A) :
  NoDup l -> NoDup (filter p l).
Proof.
  intros H. induction H as [|x l Hx Hl IH]; simpl; [constructor|].
  destruct (p x); [constructor; [|assumption] | assumption].
  rewrite filter_In. now intros [H _].
Qed.

(** Every tagged question key is in the asked-key set. *)
Lemma taggedQuestionKeys_asked (messages : list Message) :
  List.length (taggedQuestionKeys messages) <= SSet.size (getAskedKeys messages).
Proof.
  unfold SSet.size. rewrite <- (length_map keyName).
  apply NoDup_incl_length.
  - apply map_inj_NoDup; [exact keyName_inj|].
    apply filter_NoDup, QUESTION_ORDER_NoDup.
  - intros name Hin. apply in_map_iff in Hin. destruct Hin as [k [<- Hk]].
    apply filter_In in Hk. destruct Hk as [_ Hk].
    apply existsb_exists in Hk. destruct Hk as [m [Hm Hk]].
    apply andb_true_iff in Hk. destruct Hk as [Hr Hk].
    apply getAskedKeys_In. exists m. split; [assumption|].
    unfold isUser in Hr. destruct (role m); [discriminate|]. split; [reflexivity|].
    destruct (matchQTag (content m)) as [tag|]; [|discriminate].
    apply String.eqb_eq in Hk. subst tag. split; [reflexivity | apply keyName_inQUESTIONS].
Qed.

(** An end phrase in the user text, or six tagged question keys, finish
    the conversation. *)
Lemma runAgent_done_if (messages : list Message) :
  testAny END_PHRASES (userText messages) = true \/
  6 <= List.length (taggedQuestionKeys messages) ->
  done (runAgent messages) = true.
Proof.
  rewrite runAgent_done. unfold doneBySignal, doneByCoverage.
  intros [H | H]; [now rewrite H|].
  apply orb_true_iff. right. apply Nat.leb_le.
  etransitivity; [exact H | apply taggedQuestionKeys_asked].
Qed.

(** C3 (the code departs from it).  Six assistant messages tagged with
    property names inherited from [Object.prototype] finish the
    conversation, although the user text holds no end phrase and not one
    question key has been asked: [key in QUESTIONS] accepts the inherited
    names, so they count towards the six. *)
Theorem C3_inherited_names_count_as_asked :
  let messages :=
    [{| role := assistant; content := "Q-constructor: which builder?" |};
     {| role := assistant; content := "Q-toString: how would you describe it?" |};
     {| role := assistant; content := "Q-valueOf: what is it worth to you?" |};
     {| role := assistant; content := "Q-hasOwnProperty: do you own the plot?" |};
     {| role := assistant; content := "Q-isPrototypeOf: is it a model garden?" |};
     {| role := assistant; content := "Q-toLocaleString: which language?" |};
     {| role := user; content := "a calm garden" |}] in
  done (runAgent messages) = true
  /\ testAny END_PHRASES (userText messages) = false
  /\ taggedQuestionKeys messages = []
  /\ getAskedKeys messages =
       ["constructor"; "toString"; "valueOf"; "hasOwnProperty"; "isPrototypeOf";
        "toLocaleString"].
Proof. vm_compute. repeat split. Qed.

(** *** Completion is kept by appending messages *)

Lemma join_app_prefix (sep : string) (parts extra : list string) :
  parts <> [] -> exists r, join sep (parts ++ extra) = join sep parts ++ r.
Proof.
  induction parts as [|x parts IH]; intros Hne; [contradiction|].
  destruct parts as [|y parts].
  - destruct extra as [|z extra].
    + exists "". simpl. now rewrite append_empty_r.
    + exists (sep ++ join sep (z :: extra)). reflexivity.
  - destruct IH as [r Hr]; [discriminate|].
    exists r. change (join sep ((x :: y :: parts) ++ extra))
      with (x ++ sep ++ join sep ((y :: parts) ++ extra)).
    rewrite Hr. change (join sep (x :: y :: parts)) with (x ++ sep ++ join sep (y :: parts)).
    now rewrite !append_assoc.
Qed.

Lemma doneBySignal_app (messages extra : list Message) :
  doneBySignal messages = true -> doneBySignal (messages ++ extra) = true.
Proof.
  unfold doneBySignal, userText. rewrite filter_app, map_app.
  destruct (map (fun m => toLowerCase (content m)) (filter isUser messages))
    as [|x parts] eqn:E.
  - discriminate.
  - destruct (join_app_prefix newline (x :: parts)
                (map (fun m => toLowerCase (content m)) (filter isUser extra)))
      as [r Hr]; [discriminate|].
    rewrite Hr. unfold testAny. rewrite !existsb_exists.
    intros [phrase [Hin H]]. exists phrase. split; [assumption|].
    now apply includes_app_l.
Qed.

(** C4.  Completion is monotonic under appending messages: the keys of
    the asked-key set stay in it, an end phrase found in the user text is
    still found, and so, when runAgent answers done on a message list, it
    answers done on every extension of it. *)
Theorem C4_done_is_monotonic :
  forall messages extra : list Message,
    (forall k, In k (getAskedKeys messages) -> In k (getAskedKeys (messages ++ extra)))
    /\ (doneBySignal messages = true -> doneBySignal (messages ++ extra) = true)
    /\ (done (runAgent messages) = true ->
        done (runAgent (messages ++ extra)) = true).
Proof.
  intros messages extra. split; [|split].
  - intros k. rewrite !getAskedKeys_In. intros [m [Hin H]].
    exists m. split; [apply in_or_app; now left | exact H].
  - apply doneBySignal_app.
  - rewrite !runAgent_done, !orb_true_iff. intros [H | H].
    + left. now apply doneBySignal_app.
    + right. unfold doneByCoverage in *. apply Nat.leb_le. apply Nat.leb_le in H.
      etransitivity; [exact H | apply getAskedKeys_app_size].
Qed.

Lemma C4_witness :
  done (runAgent ([{| role := user; content := "OK, that's all" |}]
                  ++ [{| role := assistant; content := "Q-sun: sunlight?" |};
                      {| role := user; content := "one more thing: roses" |}])) = true.
Proof.
  apply (C4_done_is_monotonic [{| role := user; content := "OK, that's all" |}]).
  reflexivity.
Defined.

(* ------------------------------------------------------------------ *)
(** ** A conversation without user messages *)

Lemma userText_no_user (messages : list Message) :
  filter isUser messages = [] -> userText messages = "".
Proof. unfold userText. now intros ->. Qed.

Lemma analyze_no_user (messages : list Message) :
  filter isUser messages = [] -> analyze messages = noSignal.
Proof.
  intros H. unfold analyze. rewrite (userText_no_user messages H).
  vm_compute. reflexivity.
Qed.

(** C6 as stated does not hold: a history with no user message in which
    the plants question has been asked is not complete, and the next
    question is the one about sunlight, not the one about plants. *)
Lemma C6_plants_already_asked :
  ~ (forall messages : list Message,
       filter isUser messages = [] ->
       done (runAgent messages) = false ->
       nextQuestion (runAgent messages) = Some (text (QUESTIONS Kplants))).
Proof.
  intros H.
  specialize (H [{| role := assistant; content := text (QUESTIONS Kplants) |}]
                eq_refl eq_refl).
  assert (E : nextQuestion
                (runAgent [{| role := assistant; content := text (QUESTIONS Kplants) |}])
              = Some (text (QUESTIONS Ksun))) by reflexivity.
  rewrite E in H. discriminate H.
Qed.

(** C6 (amended).  A conversation with no user messages has the Analysis with null
    maintenance, sunlight and climate, no kids-or-pets flag, empty mood,
    usage and constraint sets, no liked or disliked plant and score zero
    for every style; when such a conversation is not complete and "plants"
    has not been asked, the next question is the one about plants. *)
Theorem C6_no_user_messages :
  forall messages : list Message,
    filter isUser messages = [] ->
    analyze messages = noSignal
    /\ (forall name score, In (name, score) (styles (analyze messages)) -> score = 0)
    /\ (done (runAgent messages) = false ->
        askedKey (getAskedKeys messages) Kplants = false ->
        chooseNextKey (getAskedKeys messages) (analyze messages) = Kplants
        /\ nextQuestion (runAgent messages) = Some (text (QUESTIONS Kplants))).
Proof.
  intros messages H. pose proof (analyze_no_user messages H) as E.
  split; [exact E|]. split.
  - rewrite E. simpl. intros name score Hin.
    repeat (destruct Hin as [Hin | Hin]; [now injection Hin as _ <-|]).
    destruct Hin.
  - intros Hdone Hasked.
    assert (K : chooseNextKey (getAskedKeys messages) (analyze messages) = Kplants).
    { rewrite E. unfold chooseNextKey, chooseNextKeyPath.
      cbn [likedPlants dislikedPlants noSignal List.length Nat.eqb andb].
      now rewrite Hasked. }
    split; [exact K|].
    destruct (runAgent_shape messages) as [_ S].
    destruct (S Hdone) as [-> _]. now rewrite K.
Qed.

Lemma C6_witness :
  analyze [] = noSignal
  /\ nextQuestion (runAgent []) = Some (text (QUESTIONS Kplants))
  /\ nextQuestion (runAgent [{| role := assistant; content := "Q-feels: What feelings?" |}])
     = Some (text (QUESTIONS Kplants)).
Proof.
  split; [|split].
  - apply (C6_no_user_messages []). reflexivity.
  - apply (C6_no_user_messages []); reflexivity.
  - apply (C6_no_user_messages
             [{| role := assistant; content := "Q-feels: What feelings?" |}]);
      reflexivity.
Defined.

(* ------------------------------------------------------------------ *)
(** ** The fallback of chooseNextKey *)

(** With fewer asked keys than questions, the loop over QUESTION_ORDER
    finds a key that has not been asked. *)
Lemma firstUnasked_exists (asked : SSet.t) :
  SSet.size asked < List.length QUESTION_ORDER ->
  exists k, find (fun k => negb (askedKey asked k)) QUESTION_ORDER = Some k.
Proof.
  intros Hsize.
  destruct (find (fun k => negb (askedKey asked k)) QUESTION_ORDER) as [k|] eqn:E;
    [now exists k|].
  exfalso.
  assert (Hincl : incl (map keyName QUESTION_ORDER) asked).
  { intros name Hin. apply in_map_iff in Hin. destruct Hin as [k [<- Hk]].
    pose proof (find_none _ _ E k Hk) as Hn. apply negb_false_iff in Hn.
    now apply has_In. }
  assert (Hnd : NoDup (map keyName QUESTION_ORDER))
    by (apply map_inj_NoDup; [exact keyName_inj | exact QUESTION_ORDER_NoDup]).
  pose proof (NoDup_incl_length Hnd Hincl) as Hlen.
  rewrite length_map in Hlen. unfold SSet.size in Hsize. lia.
Qed.

Lemma path_not_fallback (asked : SSet.t) (a : Analysis) :
  (exists k, find (fun k => negb (askedKey asked k)) QUESTION_ORDER = Some k) ->
  chooseNextKeyPath asked a <> Fallback.
Proof.
  intros [k Hk]. unfold chooseNextKeyPath. rewrite Hk.
  repeat match goal with
         | |- context [if ?b then _ else _] => destruct b; [discriminate|]
         end.
  discriminate.
Qed.

(** C9.  When chooseNextKey is called from runAgent, fewer than 6 keys
    have been asked; with fewer than 6 asked keys the loop over the
    8-element QUESTION_ORDER finds a key that has not been asked, so the
    final [return "constraints"] is not executed. *)
Theorem C9_fallback_unreachable :
  (forall (asked : SSet.t) (a : Analysis),
     SSet.size asked < 6 ->
     (exists k, find (fun k => negb (askedKey asked k)) QUESTION_ORDER = Some k)
     /\ chooseNextKeyPath asked a <> Fallback)
  /\ (forall messages : list Message,
        done (runAgent messages) = false ->
        SSet.size (getAskedKeys messages) < 6
        /\ chooseNextKeyPath (getAskedKeys messages) (analyze messages) <> Fallback).
Proof.
  assert (G : forall (asked : SSet.t) (a : Analysis),
             SSet.size asked < 6 ->
             (exists k, find (fun k => negb (askedKey asked k)) QUESTION_ORDER = Some k)
             /\ chooseNextKeyPath asked a <> Fallback).
  { intros asked a H.
    assert (F : exists k, find (fun k => negb (askedKey asked k)) QUESTION_ORDER = Some k)
      by (apply firstUnasked_exists; simpl; lia).
    split; [exact F | now apply path_not_fallback]. }
  split; [exact G|].
  intros messages H. rewrite runAgent_done in H.
  apply orb_false_iff in H. destruct H as [_ H].
  unfold doneByCoverage in H. apply Nat.leb_gt in H.
  split; [exact H | now apply G].
Qed.

Lemma C9_witness :
  chooseNextKeyPath ["plants"; "sun"; "maintenance"; "climate"; "feels"] noSignal
    <> Fallback
  /\ chooseNextKeyPath
       (getAskedKeys [{| role := assistant; content := "Q-plants: Any plants?" |};
                      {| role := user; content := "ferns" |}])
       (analyze [{| role := assistant; content := "Q-plants: Any plants?" |};
                 {| role := user; content := "ferns" |}])
     <> Fallback.
Proof.
  split.
  - apply (proj1 C9_fallback_unreachable
             ["plants"; "sun"; "maintenance"; "climate"; "feels"] noSignal).
    simpl. lia.
  - apply (proj2 C9_fallback_unreachable
             [{| role := assistant; content := "Q-plants: Any plants?" |};
              {| role := user; content := "ferns" |}]).
    reflexivity.
Defined.

(* ------------------------------------------------------------------ *)
(** ** Style scores *)

Lemma unescaped_is_ordinary (c : ascii) :
  memChar c ESCAPED_CHARS = false ->
  Ascii.eqb c "\" = false /\ memChar c SYNTAX_CHARS = false.
Proof.
  destruct c as [[] [] [] [] [] [] [] []]; vm_compute; intros H;
    try discriminate H; split; reflexivity.
Qed.

(** Escaping makes the pattern match the keyword literally. *)
Lemma literalOfPattern_escapeRegExp (needle : string) :
  literalOfPattern (escapeRegExp needle) = Some needle.
Proof.
  induction needle as [|c needle IH]; [reflexivity|].
  cbn [escapeRegExp]. destruct (memChar c ESCAPED_CHARS) eqn:E.
  - cbn [literalOfPattern]. rewrite Ascii.eqb_refl, E, IH. reflexivity.
  - destruct (unescaped_is_ordinary c E) as [E1 E2].
    cbn [literalOfPattern]. rewrite E1, E2, IH. reflexivity.
Qed.

Lemma occurrences_literal (text needle : string) :
  occurrences text needle = countMatches needle 0 text.
Proof. unfold occurrences. now rewrite literalOfPattern_escapeRegExp. Qed.

(** A keyword is counted at least once exactly when the text holds it. *)
Lemma countMatches_pos (lit s : string) :
  0 < countMatches lit 0 s <-> includes s lit = true.
Proof.
  induction s as [|c s IH]; cbn [countMatches includes].
  - rewrite orb_false_r. destruct (startsWith "" lit); split; intros H;
      try reflexivity; try lia; discriminate H.
  - destruct (startsWith (String c s) lit); cbn [orb].
    + split; intros _; [reflexivity | lia].
    + exact IH.
Qed.

(** The scoring loops with any counting function [f] in the place of
    [occurrences text]: each style gets the sum over its keywords. *)
Lemma scoring_loops_sum (f : string -> nat) :
  fold_left
    (fun scores entry =>
       fold_left (fun scores w => bump scores (fst entry) (f w)) (snd entry) scores)
    STYLE_KEYWORDS
    (map (fun entry => (fst entry, 0)) STYLE_KEYWORDS)
  = map (fun entry => (fst entry, list_sum (map f (snd entry)))) STYLE_KEYWORDS.
Proof.
  cbv -[Nat.add].
  repeat match goal with
         | |- (_ :: _) = (_ :: _) => f_equal
         | |- (_, _) = (_, _) => f_equal
         end; lia.
Qed.

Lemma scoreStyles_sums (text : string) :
  scoreStyles text =
  map (fun entry => (fst entry, keywordHits text (snd entry))) STYLE_KEYWORDS.
Proof.
  unfold scoreStyles. rewrite (scoring_loops_sum (occurrences text)).
  apply map_ext. intros entry. unfold keywordHits. do 2 f_equal.
  apply map_ext. intros w. apply occurrences_literal.
Qed.

Lemma lowerChar_upperChar (c : ascii) : lowerChar (upperChar c) = lowerChar c.
Proof. destruct c as [[] [] [] [] [] [] [] []]; reflexivity. Qed.

Lemma toLowerCase_toUpperCase (s : string) :
  toLowerCase (toUpperCase s) = toLowerCase s.
Proof.
  induction s as [|c s IH]; [reflexivity|].
  cbn [toUpperCase toLowerCase]. now rewrite lowerChar_upperChar, IH.
Qed.

(** Messages that differ in letter case only give the same text. *)
Lemma userText_sameUpToCase (messages1 messages2 : list Message) :
  Forall2 sameUpToCase messages1 messages2 ->
  userText messages1 = userText messages2.
Proof.
  intros H. unfold userText. f_equal.
  induction H as [|m m' l l' [Hr Hc] _ IH]; [reflexivity|].
  assert (U : isUser m = isUser m') by (unfold isUser; now rewrite Hr).
  cbn [filter]. rewrite U.
  destruct (isUser m'); [|exact IH]. cbn [map]. rewrite IH. f_equal.
  now rewrite <- (toLowerCase_toUpperCase (content m)), Hc, toLowerCase_toUpperCase.
Qed.

(** Behind a match the search resumes after the matched characters. *)
Lemma countMatches_skip (lit p rest : string) :
  countMatches lit (String.length p) (p ++ rest) = countMatches lit 0 rest.
Proof.
  induction p as [|c p IH]; [reflexivity|].
  cbn [String.length append countMatches]. exact IH.
Qed.

Lemma occurrences_match (needle rest : string) :
  needle <> "" ->
  occurrences (needle ++ rest) needle = S (occurrences rest needle).
Proof.
  intros Hne. rewrite !occurrences_literal.
  destruct needle as [|c l]; [contradiction|].
  assert (P : startsWith (String c l ++ rest) (String c l) = true)
    by (apply startsWith_spec; now exists rest).
  change (countMatches (String c l) 0 (String c l ++ rest))
    with (if startsWith (String c l ++ rest) (String c l)
          then S (countMatches (String c l) (String.length (String c l) - 1) (l ++ rest))
          else countMatches (String c l) 0 (l ++ rest)).
  rewrite P. f_equal.
  replace (String.length (String c l) - 1) with (String.length l)
    by (cbn [String.length]; lia).
  apply countMatches_skip.
Qed.

Lemma occurrences_no_match (needle : string) (c : ascii) (rest : string) :
  startsWith (String c rest) needle = false ->
  occurrences (String c rest) needle = occurrences rest needle.
Proof.
  intros H. rewrite !occurrences_literal. cbn [countMatches]. now rewrite H.
Qed.

Lemma occurrences_none (needle : string) :
  needle <> "" -> occurrences "" needle = 0.
Proof.
  intros H. rewrite occurrences_literal. destruct needle; [contradiction | reflexivity].
Qed.

Lemma occurrences_copies (needle : string) (n : nat) :
  needle <> "" -> occurrences (copies n needle) needle = n.
Proof.
  intros H. induction n as [|n IH]; cbn [copies].
  - now apply occurrences_none.
  - now rewrite occurrences_match, IH.
Qed.

Lemma scoreStyles_occurrences (text : string) :
  scoreStyles text =
  map (fun entry => (fst entry, list_sum (map (occurrences text) (snd entry))))
      STYLE_KEYWORDS.
Proof.
  unfold scoreStyles. apply (scoring_loops_sum (occurrences text)).
Qed.

(** C7.  The score of a style is the sum, over the style's keywords, of
    the occurrence counts of the keyword in the lowercased user text.
    Escaping makes the pattern literal.  The count is a count of
    occurrences, not a presence test: in the empty text it is 0, a text
    that starts with the keyword has one occurrence more than what follows
    the keyword, a text that does not start with the keyword has as many
    as its tail, and so [n] copies of the keyword in a row count [n]; a
    keyword counts at least once exactly when the text holds it.  Letter
    case does not matter: messages that differ in the case of letters only
    get the same Analysis.  For the single user message
    "I love modern minimal clean lines" the score of "Modern Minimal" is 3
    (modern, minimal and clean once each), every other style scores 0, and
    "Modern Minimal" is first in the summary's styles; for
    "Modern, MODERN and modern again" the score is 3 as well. *)
Theorem C7_style_scores :
  (forall needle : string, literalOfPattern (escapeRegExp needle) = Some needle)
  /\ (forall text needle : string,
        occurrences text needle = countMatches needle 0 text
        /\ (0 < occurrences text needle <-> includes text needle = true))
  /\ (forall needle : string,
        needle <> "" ->
        occurrences "" needle = 0
        /\ (forall rest, occurrences (needle ++ rest) needle = S (occurrences rest needle))
        /\ (forall c rest,
              startsWith (String c rest) needle = false ->
              occurrences (String c rest) needle = occurrences rest needle)
        /\ (forall n, occurrences (copies n needle) needle = n))
  /\ (forall messages : list Message,
        styles (analyze messages) =
        map (fun entry => (fst entry, keywordHits (userText messages) (snd entry)))
            STYLE_KEYWORDS
        /\ styles (analyze messages) =
           map (fun entry =>
                  (fst entry,
                   list_sum (map (occurrences (userText messages)) (snd entry))))
               STYLE_KEYWORDS)
  /\ (forall messages1 messages2 : list Message,
        Forall2 sameUpToCase messages1 messages2 ->
        analyze messages1 = analyze messages2)
  /\ (let messages := [{| role := user; content := "I love modern minimal clean lines" |}] in
      styles (analyze messages) =
        [("Modern Minimal", 3); ("Cottage Romantic", 0); ("Mediterranean Dry", 0);
         ("Japanese Zen", 0); ("Desert Xeriscape", 0); ("Tropical Lush", 0);
         ("Native Wildlife", 0)]
      /\ map (fun w => occurrences (userText messages) w) ["modern"; "minimal"; "clean"]
         = [1; 1; 1]
      /\ hd_error (Summary.styles (synthesizeSummary (analyze messages)))
         = Some "Modern Minimal")
  /\ (let messages := [{| role := user; content := "Modern, MODERN and modern again" |}] in
      styles (analyze messages) =
        [("Modern Minimal", 3); ("Cottage Romantic", 0); ("Mediterranean Dry", 0);
         ("Japanese Zen", 0); ("Desert Xeriscape", 0); ("Tropical Lush", 0);
         ("Native Wildlife", 0)]
      /\ occurrences (userText messages) "modern" = 3).
Proof.
  split; [exact literalOfPattern_escapeRegExp|].
  split; [|split; [|split; [|split; [|split]]]].
  - intros text needle. rewrite occurrences_literal.
    split; [reflexivity | apply countMatches_pos].
  - intros needle Hne. split; [now apply occurrences_none|].
    split; [intros rest; now apply occurrences_match|].
    split; [intros c rest; apply occurrences_no_match|].
    intros n. now apply occurrences_copies.
  - intros messages. unfold analyze. cbn [styles].
    split; [apply scoreStyles_sums | apply scoreStyles_occurrences].
  - intros messages1 messages2 H. unfold analyze.
    now rewrite (userText_sameUpToCase _ _ H).
  - vm_compute. repeat split.
  - vm_compute. repeat split.
Qed.

Lemma C7_witness :
  (occurrences "" "zen" = 0
   /\ occurrences ("zen" ++ " or zen") "zen" = S (occurrences " or zen" "zen")
   /\ occurrences "a zen" "zen" = occurrences " zen" "zen"
   /\ occurrences (copies 4 "zen") "zen" = 4)
  /\ analyze [{| role := user; content := "ZEN Garden, Mostly SHADE" |}]
     = analyze [{| role := user; content := "zen garden, mostly shade" |}].
Proof.
  split.
  - destruct (proj1 (proj2 (proj2 C7_style_scores)) "zen") as [H1 [H2 [H3 H4]]];
      [discriminate|].
    split; [exact H1|]. split; [exact (H2 " or zen")|].
    split; [exact (H3 "a"%char " zen" eq_refl) | exact (H4 4)].
  - apply (proj1 (proj2 (proj2 (proj2 (proj2 C7_style_scores))))
             [{| role := user; content := "ZEN Garden, Mostly SHADE" |}]
             [{| role := user; content := "zen garden, mostly shade" |}]).
    constructor; [split; reflexivity | constructor].
Defined.

(* ------------------------------------------------------------------ *)
(** ** Ranking the styles *)

Lemma insertByScore_In (x y : string * nat) (l : list (string * nat)) :
  In y (insertByScore x l) -> y = x \/ In y l.
Proof.
  induction l as [|z l IH]; simpl.
  - intros [<- | []]. now left.
  - destruct (snd x <? snd z)%nat; simpl.
    + intros [<- | H]; [right; now left|].
      destruct (IH H) as [-> | H']; [now left | right; now right].
    + intros [<- | H]; [now left | now right].
Qed.

Lemma insertByScore_sorted (x : string * nat) (l : list (string * nat)) :
  StronglySorted (fun x y => snd y <= snd x) l ->
  StronglySorted (fun x y => snd y <= snd x) (insertByScore x l).
Proof.
  intros H. induction H as [|z l Hl IH Hz]; simpl.
  - constructor; [constructor | constructor].
  - destruct (snd x <? snd z)%nat eqn:E.
    + apply Nat.ltb_lt in E. constructor; [assumption|].
      apply Forall_forall. intros y Hy.
      destruct (insertByScore_In _ _ _ Hy) as [-> | Hy']; [cbv beta; lia|].
      now apply (proj1 (Forall_forall _ _) Hz).
    + apply Nat.ltb_ge in E. constructor; [now constructor|].
      constructor; [assumption|].
      apply Forall_forall. intros y Hy.
      pose proof (proj1 (Forall_forall _ _) Hz y Hy) as Hzy.
      cbv beta in Hzy. lia.
Qed.

(** Inserting is stable: an entry never passes one with the same score. *)
Lemma insertByScore_filter (n : nat) (x : string * nat) (l : list (string * nat)) :
  filter (scoreIs n) (insertByScore x l) = filter (scoreIs n) (x :: l).
Proof.
  induction l as [|z l IH]; [reflexivity|].
  cbn [insertByScore]. destruct (snd x <? snd z)%nat eqn:E; [|reflexivity].
  apply Nat.ltb_lt in E. cbn [filter] in *. rewrite IH.
  unfold scoreIs. destruct (snd z =? n)%nat eqn:Ez; [|reflexivity].
  apply Nat.eqb_eq in Ez.
  destruct (snd x =? n)%nat eqn:Ex; [|reflexivity].
  apply Nat.eqb_eq in Ex. lia.
Qed.

Lemma sortByScore_isRanking (entries : list (string * nat)) :
  isRanking entries (sortByScore entries).
Proof.
  unfold isRanking, sortByScore. induction entries as [|x entries [IH1 IH2]]; simpl.
  - split; [constructor | reflexivity].
  - split; [now apply insertByScore_sorted|].
    intros n. rewrite insertByScore_filter. simpl. now rewrite IH2.
Qed.

Lemma filter_scoreIs_head (x : string * nat) (l : list (string * nat)) :
  filter (scoreIs (snd x)) (x :: l) = x :: filter (scoreIs (snd x)) l.
Proof. simpl. unfold scoreIs at 1. now rewrite Nat.eqb_refl. Qed.

Lemma in_filter_scoreIs (x : string * nat) (l : list (string * nat)) :
  In x l <-> In x (filter (scoreIs (snd x)) l).
Proof.
  rewrite filter_In. unfold scoreIs. rewrite Nat.eqb_refl. tauto.
Qed.

(** The two requirements leave one ranking only. *)
Lemma ranking_unique (r1 : list (string * nat)) :
  forall r2,
    StronglySorted (fun x y => snd y <= snd x) r1 ->
    StronglySorted (fun x y => snd y <= snd x) r2 ->
    (forall n, filter (scoreIs n) r1 = filter (scoreIs n) r2) ->
    r1 = r2.
Proof.
  induction r1 as [|x r1 IH]; intros r2 S1 S2 F.
  - destruct r2 as [|y r2]; [reflexivity|].
    specialize (F (snd y)). rewrite filter_scoreIs_head in F. discriminate.
  - destruct r2 as [|y r2].
    + specialize (F (snd x)). rewrite filter_scoreIs_head in F. discriminate.
    + inversion S1 as [|? ? S1' H1]; subst. inversion S2 as [|? ? S2' H2]; subst.
      assert (Exy : snd x = snd y).
      { assert (Hx : In x (y :: r2)).
        { apply in_filter_scoreIs. rewrite <- F, filter_scoreIs_head. now left. }
        assert (Hy : In y (x :: r1)).
        { apply in_filter_scoreIs. rewrite F, filter_scoreIs_head. now left. }
        assert (snd x <= snd y).
        { destruct Hx as [<- | Hx]; [lia|].
          exact (proj1 (Forall_forall _ _) H2 x Hx). }
        assert (snd y <= snd x).
        { destruct Hy as [<- | Hy]; [lia|].
          exact (proj1 (Forall_forall _ _) H1 y Hy). }
        lia. }
      assert (E : x = y).
      { pose proof (F (snd x)) as Fx. rewrite filter_scoreIs_head in Fx.
        rewrite Exy in Fx at 2. rewrite filter_scoreIs_head in Fx.
        now injection Fx. }
      subst y. f_equal. apply IH; try assumption.
      intros n. specialize (F n). cbn [filter] in F.
      destruct (scoreIs n x); [now injection F | assumption].
Qed.

Lemma isRanking_sortByScore (entries ranked : list (string * nat)) :
  isRanking entries ranked -> ranked = sortByScore entries.
Proof.
  intros [S F]. destruct (sortByScore_isRanking entries) as [S' F'].
  apply ranking_unique; try assumption.
  intros n. now rewrite F, F'.
Qed.

(** C5.  The summary's styles are the names of the first two entries with
    a positive score in the ranking of the style scores (scores going down,
    equal scores in the order of the entries, which for an Analysis built
    by analyze is the key order of STYLE_KEYWORDS), or the one label
    "Contemporary Natural" when no score is positive; its mood words are
    the matched moods, or "Calm" and "Welcoming" when there is none. *)
Theorem C5_summary_styles_and_moods :
  forall (a : Analysis) (ranked : list (string * nat)),
    isRanking (styles a) ranked ->
    let top := map fst (firstn 2 (filter (fun e => (0 <? snd e)%nat) ranked)) in
    Summary.styles (synthesizeSummary a)
      = match top with [] => ["Contemporary Natural"] | _ :: _ => top end
    /\ List.length top <= 2
    /\ (forall name, In name top -> exists score, In (name, score) (styles a) /\ 0 < score)
    /\ Summary.moodWords (synthesizeSummary a)
       = match mood a with [] => ["Calm"; "Welcoming"] | _ :: _ => mood a end
    /\ (forall messages, map fst (styles (analyze messages)) = map fst STYLE_KEYWORDS).
Proof.
  intros a ranked H top.
  pose proof (isRanking_sortByScore _ _ H) as E.
  split; [|split; [|split; [|split]]];
    [| | | | intros messages; unfold analyze; cbn [styles];
             rewrite scoreStyles_sums, map_map; reflexivity].
  - unfold synthesizeSummary, topStyles. cbn [Summary.styles]. fold top.
    subst top. rewrite E. reflexivity.
  - subst top. rewrite length_map, length_firstn. lia.
  - intros name Hin. subst top. apply in_map_iff in Hin.
    destruct Hin as [[name' score] [<- Hin]]. exists score.
    assert (Hin' : In (name', score) (filter (fun e => (0 <? snd e)%nat) ranked)).
    { rewrite <- (firstn_skipn 2 (filter _ ranked)). apply in_or_app. now left. }
    clear Hin. rename Hin' into Hin. apply filter_In in Hin. destruct Hin as [Hin Hpos].
    split; [|apply Nat.ltb_lt in Hpos; exact Hpos].
    destruct H as [_ F].
    apply (proj2 (in_filter_scoreIs (name', score) (styles a))).
    rewrite <- F.
    exact (proj1 (in_filter_scoreIs (name', score) ranked) Hin).
  - reflexivity.
Qed.

Lemma C5_witness :
  Summary.styles
    (synthesizeSummary
       (analyze [{| role := user; content := "zen stone, olive, tropical palms" |}]))
    = ["Japanese Zen"; "Tropical Lush"]
  /\ Summary.moodWords
       (synthesizeSummary
          (analyze [{| role := user; content := "zen stone, olive, tropical palms" |}]))
     = ["Calm"; "Welcoming"].
Proof.
  pose proof (C5_summary_styles_and_moods
                (analyze [{| role := user; content := "zen stone, olive, tropical palms" |}])
                [("Japanese Zen", 2); ("Tropical Lush", 2); ("Mediterranean Dry", 1);
                 ("Modern Minimal", 0); ("Cottage Romantic", 0);
                 ("Desert Xeriscape", 0); ("Native Wildlife", 0)]) as H.
  cbv zeta in H.
  assert (R : isRanking
                (styles (analyze [{| role := user; content := "zen stone, olive, tropical palms" |}]))
                [("Japanese Zen", 2); ("Tropical Lush", 2); ("Mediterranean Dry", 1);
                 ("Modern Minimal", 0); ("Cottage Romantic", 0);
                 ("Desert Xeriscape", 0); ("Native Wildlife", 0)]).
  { split.
    - repeat (constructor; [|repeat (constructor; [simpl; lia|]); constructor]).
      constructor.
    - intros n. vm_compute.
      destruct n as [|[|[|n]]]; reflexivity. }
  destruct (H R) as [H1 [_ [_ [H4 _]]]]. split; [exact H1 | exact H4].
Defined.

(* ------------------------------------------------------------------ *)
(** ** The plant palette *)

Lemma addAll_In (values : list string) :
  forall (items : SSet.t) (e : string),
    In e (addAll items values) <-> In e items \/ In e values.
Proof.
  unfold addAll. induction values as [|v values IH]; intros items e; simpl.
  - tauto.
  - rewrite IH, add_In. split; intros H; [|destruct H as [H | [H | H]]]; auto.
    destruct H as [[H | H] | H]; auto.
Qed.

Lemma delete_In (s : SSet.t) (x e : string) :
  In e (SSet.delete s x) <-> In e s /\ e <> x.
Proof.
  unfold SSet.delete. rewrite filter_In, negb_true_iff, String.eqb_neq.
  split; intros [H1 H2]; split; auto.
Qed.

Lemma deleteAll_In (removed : list string) :
  forall (items : SSet.t) (e : string),
    In e (fold_left SSet.delete removed items) <-> In e items /\ ~ In e removed.
Proof.
  induction removed as [|d removed IH]; intros items e; simpl.
  - tauto.
  - rewrite IH, delete_In. split.
    + intros [[H1 H2] H3]. split; [assumption|].
      intros [H | H]; [apply H2; now rewrite H | now apply H3].
    + intros [H1 H2]. split; [split; [assumption|] |].
      * intros ->. apply H2. now left.
      * intros H. apply H2. now right.
Qed.

Lemma stylePalettes_In (selected : list string) :
  forall (items : SSet.t) (e : string),
    In e (fold_left (fun items style => addAll items (paletteOf style)) selected items)
    <-> In e items \/ In e (flat_map paletteOf selected).
Proof.
  induction selected as [|s selected IH]; intros items e; simpl.
  - tauto.
  - rewrite IH, addAll_In, in_app_iff. tauto.
Qed.

Lemma buildPalette_In (selected : list string) (a : Analysis) (e : string) :
  In e (buildPalette selected a) <->
  (In e (suggestions selected a) \/ In e (likedPlants a)) /\ ~ In e (dislikedPlants a).
Proof.
  unfold buildPalette, suggestions.
  rewrite deleteAll_In, !addAll_In, stylePalettes_In, in_app_iff. simpl. tauto.
Qed.

(** C1 as stated does not hold: with roses disliked and "Cottage
    Romantic" selected, the palette still has the Cottage Romantic
    suggestion that mentions roses. *)
Lemma C1_roses_suggestion_stays :
  ~ (forall a : Analysis,
       In "Roses" (dislikedPlants a) ->
       In "Cottage Romantic" (Summary.styles (synthesizeSummary a)) ->
       forall entry, In entry (Summary.plantPalette (synthesizeSummary a)) ->
                     derivedFrom "Roses" entry = false).
Proof.
  intros H.
  specialize (H (analyze [{| role := user;
                             content := "A cottage garden, but I dislike roses" |}])).
  assert (H1 : derivedFrom "Roses" rosesSuggestion = false).
  { apply H; vm_compute; auto. }
  vm_compute in H1. discriminate H1.
Qed.

Lemma summary_palette (a : Analysis) :
  Summary.plantPalette (synthesizeSummary a) =
  buildPalette (Summary.styles (synthesizeSummary a)) a.
Proof. reflexivity. Qed.

(** The disliked plants of an analysis are capitalised names of
    PLANT_SYNONYMS. *)
Lemma analyze_disliked_names (messages : list Message) (plant : string) :
  In plant (dislikedPlants (analyze messages)) ->
  In plant (map (fun e => cap (fst e)) PLANT_SYNONYMS).
Proof.
  exact (proj2 (detectPlants_names PLANT_SYNONYMS (userText messages)) plant).
Qed.

(** C1 (amended).  buildPalette removes the disliked plant names by exact
    match, after all additions: an entry is in the palette exactly when it
    is a suggestion string or a liked plant name and is not itself a
    disliked name.  So no palette entry equals a disliked name, and for
    every message list whose summary selects "Cottage Romantic" the
    suggestion "Roses and climbers: David Austin roses, Clematis" is in
    the palette, roses disliked or not. *)
Theorem C1_palette_removes_disliked_names :
  (forall (selected : list string) (a : Analysis) (entry : string),
     In entry (buildPalette selected a) <->
     (In entry (suggestions selected a) \/ In entry (likedPlants a))
     /\ ~ In entry (dislikedPlants a))
  /\ (forall (a : Analysis) (plant : string),
        In plant (dislikedPlants a) ->
        ~ In plant (Summary.plantPalette (synthesizeSummary a)))
  /\ (forall messages : list Message,
        In "Cottage Romantic" (Summary.styles (synthesizeSummary (analyze messages))) ->
        In rosesSuggestion
           (Summary.plantPalette (synthesizeSummary (analyze messages)))).
Proof.
  split; [exact buildPalette_In|]. split.
  - intros a plant Hd Hin. rewrite summary_palette in Hin.
    apply buildPalette_In in Hin. tauto.
  - intros messages. rewrite summary_palette.
    generalize (Summary.styles (synthesizeSummary (analyze messages))).
    intros selected Hsel. apply buildPalette_In. split.
    + left. unfold suggestions. apply in_or_app. left.
      refine (proj2 (in_flat_map paletteOf selected rosesSuggestion) _).
      exists "Cottage Romantic". split; [exact Hsel|].
      right. left. reflexivity.
    + intros Hd. apply analyze_disliked_names in Hd.
      unfold PLANT_SYNONYMS in Hd. cbn [map fst cap] in Hd.
      repeat (destruct Hd as [Hd | Hd]; [discriminate Hd|]). exact Hd.
Qed.

Lemma C1_witness :
  ~ In "Roses"
      (Summary.plantPalette
         (synthesizeSummary
            (analyze [{| role := user; content := "Cottage please. I avoid roses" |}])))
  /\ In rosesSuggestion
        (Summary.plantPalette
           (synthesizeSummary
              (analyze [{| role := user; content := "Cottage please. I avoid roses" |}]))).
Proof.
  split.
  - apply (proj1 (proj2 C1_palette_removes_disliked_names)
             (analyze [{| role := user; content := "Cottage please. I avoid roses" |}])
             "Roses").
    vm_compute. left. reflexivity.
  - apply (proj2 (proj2 C1_palette_removes_disliked_names)
             [{| role := user; content := "Cottage please. I avoid roses" |}]).
    vm_compute. left. reflexivity.
Defined.

(* ------------------------------------------------------------------ *)
(** ** More on the asked-key set and on the dialogue *)

Lemma add_new (s : SSet.t) (x : string) :
  SSet.has s x = false -> SSet.add s x = (s ++ [x])%list.
Proof. unfold SSet.add. now intros ->. Qed.

Lemma getAskedKeys_snoc (messages : list Message) (m : Message) :
  getAskedKeys (messages ++ [m]) = noteAsked (getAskedKeys messages) m.
Proof. unfold getAskedKeys. now rewrite fold_left_app. Qed.

Lemma matchQTag_question (k : QuestionKey) :
  matchQTag (text (QUESTIONS k)) = Some (keyName k).
Proof. destruct k; reflexivity. Qed.

Lemma inQUESTIONS_accepted (k : string) :
  inQUESTIONS k = true <-> In k ACCEPTED_TAGS.
Proof.
  unfold inQUESTIONS, ACCEPTED_TAGS.
  rewrite orb_true_iff, in_app_iff, !existsb_exists. split.
  - intros [[x [Hx E]] | [x [Hx E]]]; apply String.eqb_eq in E; subst; auto.
  - intros [H | H]; [left | right]; exists k; split; auto using String.eqb_refl.
Qed.

(** X1.  The asked-key set has no duplicates; a name is in it exactly when
    an assistant message opens with the tag of that name and the [in] test
    accepts the name, so it holds at most the 20 accepted names; user
    messages never add to it, whatever they contain. *)
Theorem X1_asked_keys_come_from_assistant_tags :
  forall messages : list Message,
    NoDup (getAskedKeys messages)
    /\ (forall k, In k (getAskedKeys messages) <->
                  exists m, In m messages /\ role m = assistant /\
                            matchQTag (content m) = Some k /\ In k ACCEPTED_TAGS)
    /\ SSet.size (getAskedKeys messages) <= 20
    /\ getAskedKeys messages = getAskedKeys (filter (fun m => negb (isUser m)) messages).
Proof.
  intros messages. split; [apply getAskedKeys_NoDup|]. split; [|split].
  - intros k. rewrite getAskedKeys_In. split; intros [m [H1 [H2 [H3 H4]]]];
      exists m; repeat split; auto; now apply inQUESTIONS_accepted.
  - change 20 with (List.length ACCEPTED_TAGS). unfold SSet.size.
    apply NoDup_incl_length; [apply getAskedKeys_NoDup|].
    intros k Hk. apply getAskedKeys_In in Hk.
    destruct Hk as [m [_ [_ [_ Hk]]]]. now apply inQUESTIONS_accepted.
  - unfold getAskedKeys. generalize (@nil string).
    induction messages as [|m messages IH]; intros asked; [reflexivity|].
    cbn [filter fold_left]. unfold isUser at 1, noteAsked at 2.
    destruct (role m) eqn:E; cbn [negb].
    + apply IH.
    + cbn [fold_left]. unfold noteAsked at 3. rewrite E. apply IH.
Qed.

Lemma getAskedKeys_question (k : QuestionKey) (messages : list Message) :
  getAskedKeys (messages ++ [{| role := assistant; content := text (QUESTIONS k) |}])
  = SSet.add (getAskedKeys messages) (keyName k).
Proof.
  rewrite getAskedKeys_snoc. unfold noteAsked. cbn [role content].
  now rewrite matchQTag_question, keyName_inQUESTIONS.
Qed.

(** X2.  The tag parser reads back the agent's own questions: the text of
    each question opens with the tag of its key, and appending a question
    as an assistant message adds exactly its key to the asked-key set. *)
Theorem X2_questions_are_read_back :
  forall (k : QuestionKey) (messages : list Message),
    matchQTag (text (QUESTIONS k)) = Some (keyName k)
    /\ key (QUESTIONS k) = k
    /\ getAskedKeys (messages ++ [{| role := assistant; content := text (QUESTIONS k) |}])
       = SSet.add (getAskedKeys messages) (keyName k).
Proof.
  intros k messages. split; [apply matchQTag_question|]. split; [now destruct k|].
  apply getAskedKeys_question.
Qed.

Lemma chosen_not_asked (asked : SSet.t) (a : Analysis) :
  chooseNextKeyPath asked a <> Fallback ->
  askedKey asked (chooseNextKey asked a) = false.
Proof.
  unfold chooseNextKey, chooseNextKeyPath.
  repeat match goal with
         | |- context [if ?b && negb ?c then _ else _] =>
             let E := fresh "E" in
             destruct (b && negb c) eqn:E;
             [apply andb_true_iff in E; destruct E as [_ E];
              apply negb_true_iff in E; intros _; exact E|]
         end.
  destruct (find (fun k => negb (askedKey asked k)) QUESTION_ORDER) as [k|] eqn:F.
  - intros _. apply find_some in F. destruct F as [_ F].
    now apply negb_true_iff in F.
  - intros H. now contradiction H.
Qed.



Lemma runAgent_asks_unasked (messages : list Message) :
  done (runAgent messages) = false ->
  let k := chooseNextKey (getAskedKeys messages) (analyze messages) in
  nextQuestion (runAgent messages) = Some (text (QUESTIONS k))
  /\ askedKey (getAskedKeys messages) k = false.
Proof.
  intros H k. split; [apply (proj2 (runAgent_shape messages) H)|].
  apply chosen_not_asked, path_not_fallback, firstUnasked_exists.
  rewrite runAgent_done in H. apply orb_false_iff in H. destruct H as [_ H].
  unfold doneByCoverage in H. apply Nat.leb_gt in H. simpl. lia.
Qed.

(** X4.  Each question is new: when runAgent asks a question, its key was
    not in the asked-key set, and once the question is appended as an
    assistant message the set is the old one with that key behind it, one
    larger. *)
Theorem X4_each_question_is_new :
  forall messages : list Message,
    done (runAgent messages) = false ->
    exists k,
      nextQuestion (runAgent messages) = Some (text (QUESTIONS k))
      /\ ~ In (keyName k) (getAskedKeys messages)
      /\ getAskedKeys (messages ++ [{| role := assistant; content := text (QUESTIONS k) |}])
         = (getAskedKeys messages ++ [keyName k])%list.
Proof.
  intros messages H. destruct (runAgent_asks_unasked messages H) as [Hq Hk].
  exists (chooseNextKey (getAskedKeys messages) (analyze messages)).
  split; [exact Hq|]. split.
  - rewrite <- has_In. unfold askedKey in Hk. rewrite Hk. discriminate.
  - rewrite getAskedKeys_question. now apply add_new.
Qed.

Lemma X4_witness :
  exists k,
    nextQuestion (runAgent [{| role := assistant;
                               content := text (QUESTIONS Kplants) |};
                            {| role := user; content := "I love ferns" |}])
      = Some (text (QUESTIONS k))
    /\ ~ In (keyName k) ["plants"]
    /\ getAskedKeys
         ([{| role := assistant; content := text (QUESTIONS Kplants) |};
           {| role := user; content := "I love ferns" |}]
          ++ [{| role := assistant; content := text (QUESTIONS k) |}])
       = ["plants"; keyName k].
Proof.
  apply (X4_each_question_is_new
           [{| role := assistant; content := text (QUESTIONS Kplants) |};
            {| role := user; content := "I love ferns" |}]).
  reflexivity.
Defined.

(** *** The dialogue ends *)

Lemma getAskedKeys_user (messages : list Message) (r : string) :
  getAskedKeys (messages ++ [{| role := user; content := r |}]) = getAskedKeys messages.
Proof. now rewrite getAskedKeys_snoc. Qed.

Lemma converse_done (replies : list string) :
  forall messages : list Message,
    6 <= SSet.size (getAskedKeys messages) + List.length replies ->
    done (runAgent (converse messages replies)) = true.
Proof.
  induction replies as [|r replies IH]; intros messages Hsize.
  - assert (D : done (runAgent messages) = true).
    { rewrite runAgent_done. apply orb_true_iff. right.
      apply Nat.leb_le. cbn [List.length] in Hsize. lia. }
    destruct (proj1 (runAgent_shape messages) D) as [_ Hq].
    cbn [converse]. now rewrite Hq.
  - cbn [converse]. destruct (done (runAgent messages)) eqn:D.
    + destruct (proj1 (runAgent_shape messages) D) as [_ Hq]. now rewrite Hq.
    + destruct (runAgent_asks_unasked messages D) as [Hq Hk]. rewrite Hq.
      apply IH.
      change (messages ++ [{| role := assistant; content := text (QUESTIONS (chooseNextKey (getAskedKeys messages) (analyze messages))) |};
                           {| role := user; content := r |}])%list
        with (messages ++ ([{| role := assistant; content := text (QUESTIONS (chooseNextKey (getAskedKeys messages) (analyze messages))) |}]
                           ++ [{| role := user; content := r |}]))%list.
      rewrite app_assoc, getAskedKeys_user, getAskedKeys_question, add_new by exact Hk.
      unfold SSet.size in *. rewrite length_app.
      cbn [List.length] in Hsize |- *. lia.
Qed.

Lemma converse_extends (replies : list string) :
  forall messages : list Message,
    exists added, converse messages replies = (messages ++ added)%list
                  /\ List.length (filter (fun m => negb (isUser m)) added)
                     <= 6 - SSet.size (getAskedKeys messages).
Proof.
  induction replies as [|r replies IH]; intros messages; cbn [converse].
  - destruct (done (runAgent messages)) eqn:D.
    + destruct (proj1 (runAgent_shape messages) D) as [_ Hq]. rewrite Hq.
      exists []. rewrite app_nil_r. split; [reflexivity | cbn [filter List.length]; lia].
    + destruct (runAgent_asks_unasked messages D) as [Hq Hk]. rewrite Hq.
      eexists. split; [reflexivity|]. cbn [filter isUser role negb List.length].
      rewrite runAgent_done in D. apply orb_false_iff in D. destruct D as [_ D].
      unfold doneByCoverage in D. apply Nat.leb_gt in D. lia.
  - destruct (done (runAgent messages)) eqn:D.
    + destruct (proj1 (runAgent_shape messages) D) as [_ Hq]. rewrite Hq.
      exists []. rewrite app_nil_r. split; [reflexivity | cbn [filter List.length]; lia].
    + destruct (runAgent_asks_unasked messages D) as [Hq Hk]. rewrite Hq.
      set (q := {| role := assistant;
                   content := text (QUESTIONS (chooseNextKey (getAskedKeys messages)
                                                             (analyze messages))) |}) in *.
      destruct (IH (messages ++ [q; {| role := user; content := r |}])%list)
        as [added [E Hlen]].
      exists (q :: {| role := user; content := r |} :: added).
      split; [rewrite E, <- app_assoc; reflexivity|].
      assert (S' : SSet.size (getAskedKeys (messages ++ [q; {| role := user; content := r |}]))
                   = S (SSet.size (getAskedKeys messages))).
      { change (messages ++ [q; {| role := user; content := r |}])%list
          with (messages ++ ([q] ++ [{| role := user; content := r |}]))%list.
        rewrite app_assoc, getAskedKeys_user. subst q.
        rewrite getAskedKeys_question, add_new by exact Hk.
        unfold SSet.size. rewrite length_app. cbn [List.length]. lia. }
      rewrite S' in Hlen.
      rewrite runAgent_done in D. apply orb_false_iff in D. destruct D as [_ D].
      unfold doneByCoverage in D. apply Nat.leb_gt in D.
      subst q. cbn [filter isUser role negb List.length]. lia.
Qed.

(** X5.  The dialogue ends: when each question of the agent is answered
    by one user reply and the agent is asked again, the agent asks at most
    six questions, and with six replies at hand it ends with a summary,
    whatever the replies say. *)
Theorem X5_dialogue_ends_within_six_questions :
  forall replies : list string,
    List.length (filter (fun m => negb (isUser m)) (converse [] replies)) <= 6
    /\ (6 <= List.length replies ->
        done (runAgent (converse [] replies)) = true
        /\ exists s, summary (runAgent (converse [] replies)) = Some s).
Proof.
  intros replies. split.
  - destruct (converse_extends replies []) as [added [E H]].
    rewrite E. cbn [app]. exact H.
  - intros H.
    assert (D : done (runAgent (converse [] replies)) = true)
      by (apply converse_done; cbn [getAskedKeys fold_left SSet.size List.length]; lia).
    split; [exact D|].
    destruct (proj1 (runAgent_shape _) D) as [Hs _]. eexists. exact Hs.
Qed.

Lemma X5_witness :
  done (runAgent (converse [] ["ferns"; "calm"; "shade"; "low upkeep"; "coastal";
                               "zen"])) = true.
Proof.
  apply (X5_dialogue_ends_within_six_questions
           ["ferns"; "calm"; "shade"; "low upkeep"; "coastal"; "zen"]).
  simpl. lia.
Defined.

(* ------------------------------------------------------------------ *)
(** ** Phrases and lines *)

Lemma inLine_spec (w : string) :
  inLine w = true -> w <> "" /\ memChar lineBreak w = false.
Proof.
  unfold inLine. rewrite andb_true_iff, !negb_true_iff, String.eqb_neq. tauto.
Qed.

(** A phrase without a line break cannot start before a line break and
    end behind it. *)
Lemma startsWith_before_break (w : string) :
  memChar lineBreak w = false ->
  forall a b, startsWith (a ++ String lineBreak b) w = startsWith a w.
Proof.
  induction w as [|c w IH]; intros Hw a b; [reflexivity|].
  cbn [memChar] in Hw. apply orb_false_iff in Hw. destruct Hw as [Hc Hw].
  destruct a as [|x a]; cbn [append startsWith].
  - rewrite Ascii.eqb_sym, Hc. reflexivity.
  - now rewrite IH.
Qed.

Lemma includes_across_break (w a b : string) :
  memChar lineBreak w = false ->
  includes (a ++ String lineBreak b) w = includes a w || includes b w.
Proof.
  intros Hw. induction a as [|x a IH].
  - cbn [append]. change (includes (String lineBreak b) w)
      with (startsWith (String lineBreak b) w || includes b w).
    change (String lineBreak b) with ("" ++ String lineBreak b) at 1.
    rewrite (startsWith_before_break w Hw "" b). cbn [includes].
    now rewrite orb_false_r.
  - change (includes (String x a ++ String lineBreak b) w)
      with (startsWith (String x a ++ String lineBreak b) w
            || includes (a ++ String lineBreak b) w).
    rewrite (startsWith_before_break w Hw (String x a) b), IH.
    cbn [includes]. now rewrite orb_assoc.
Qed.

Lemma includes_join_lines (w : string) (parts : list string) :
  inLine w = true ->
  includes (join newline parts) w = existsb (fun part => includes part w) parts.
Proof.
  intros H. destruct (inLine_spec w H) as [Hne Hw].
  induction parts as [|x parts IH].
  - destruct w; [contradiction | reflexivity].
  - destruct parts as [|y parts].
    + cbn [join existsb]. now rewrite orb_false_r.
    + change (join newline (x :: y :: parts))
        with (x ++ String lineBreak (join newline (y :: parts))).
      rewrite (includes_across_break w x _ Hw), IH. reflexivity.
Qed.

Lemma startsWith_length (s w : string) :
  startsWith s w = true -> String.length w <= String.length s.
Proof.
  revert s. induction w as [|c w IH]; intros s H; [simpl; lia|].
  destruct s as [|x s]; [discriminate H|].
  cbn [startsWith] in H. apply andb_true_iff in H. destruct H as [_ H].
  apply IH in H. simpl. lia.
Qed.

Lemma countMatches_empty_text (w : string) (skip : nat) :
  w <> "" -> countMatches w skip "" = 0.
Proof. intros H. destruct skip, w; try reflexivity. contradiction. Qed.

Lemma countMatches_across_break (w b : string) :
  w <> "" -> memChar lineBreak w = false ->
  forall a skip,
    skip <= String.length a ->
    countMatches w skip (a ++ String lineBreak b)
    = countMatches w skip a + countMatches w 0 b.
Proof.
  intros Hne Hw. induction a as [|x a IH]; intros skip Hskip.
  - assert (skip = 0) by (simpl in Hskip; lia). subst skip.
    rewrite countMatches_empty_text by exact Hne.
    cbn [append countMatches].
    change (String lineBreak b) with ("" ++ String lineBreak b) at 1.
    rewrite (startsWith_before_break w Hw "" b).
    destruct w; [contradiction | reflexivity].
  - destruct skip as [|k].
    + change (countMatches w 0 (String x a ++ String lineBreak b))
        with (if startsWith (String x a ++ String lineBreak b) w
              then S (countMatches w (String.length w - 1) (a ++ String lineBreak b))
              else countMatches w 0 (a ++ String lineBreak b)).
      rewrite (startsWith_before_break w Hw (String x a) b).
      cbn [countMatches]. destruct (startsWith (String x a) w) eqn:E.
      * apply startsWith_length in E. rewrite IH by (simpl in E; lia). reflexivity.
      * apply IH. lia.
    + cbn [append countMatches]. apply IH. simpl in Hskip. lia.
Qed.

Lemma countMatches_join_lines (w : string) (parts : list string) :
  inLine w = true ->
  countMatches w 0 (join newline parts)
  = list_sum (map (countMatches w 0) parts).
Proof.
  intros H. destruct (inLine_spec w H) as [Hne Hw].
  induction parts as [|x parts IH].
  - now apply countMatches_empty_text.
  - destruct parts as [|y parts].
    + cbn [join map list_sum fold_right]. lia.
    + change (join newline (x :: y :: parts))
        with (x ++ String lineBreak (join newline (y :: parts))).
      rewrite (countMatches_across_break w _ Hne Hw x 0) by lia.
      rewrite IH. reflexivity.
Qed.

(** Matches do not overlap: they fit side by side into the text. *)
Lemma countMatches_fit (w : string) :
  w <> "" ->
  forall s skip,
    skip <= String.length s ->
    countMatches w skip s * String.length w + skip <= String.length s.
Proof.
  intros Hne. induction s as [|x s IH]; intros skip Hskip.
  - rewrite countMatches_empty_text by exact Hne. simpl in *. lia.
  - destruct skip as [|k]; cbn [countMatches].
    + destruct (startsWith (String x s) w) eqn:E.
      * apply startsWith_length in E. cbn [String.length] in *.
        assert (L : 1 <= String.length w) by (destruct w; [contradiction | simpl; lia]).
        specialize (IH (String.length w - 1)). nia.
      * specialize (IH 0). cbn [String.length]. lia.
    + specialize (IH k). cbn [String.length] in *. lia.
Qed.

Lemma countMatches_empty_needle (s : string) :
  countMatches "" 0 s = S (String.length s).
Proof. induction s as [|x s IH]; [reflexivity|]. cbn. now rewrite IH. Qed.

(** X6.  occurrences at its edges: a keyword that is not empty occurs 0
    times in the empty text; the empty keyword matches once at every
    position, the end included; and the matches of a keyword that is not
    empty do not overlap, so count times keyword length is at most the
    length of the text. *)
Theorem X6_occurrences_edges_and_bound :
  forall text needle : string,
    occurrences text "" = S (String.length text)
    /\ (needle <> "" ->
        occurrences "" needle = 0
        /\ occurrences text needle * String.length needle <= String.length text).
Proof.
  intros text needle. rewrite !occurrences_literal. split.
  - apply countMatches_empty_needle.
  - intros Hne. split.
    + now apply countMatches_empty_text.
    + pose proof (countMatches_fit needle Hne text 0). lia.
Qed.

Lemma X6_witness :
  occurrences "" "aa" = 0
  /\ occurrences "aaaaa" "aa" * String.length "aa" <= String.length "aaaaa".
Proof.
  apply (X6_occurrences_edges_and_bound "aaaaa" "aa"). discriminate.
Defined.

(** X7.  A keyword with no line break is counted message by message: its
    occurrence count in the joined user text is the sum of its counts in
    the lowercased user messages, and it occurs in the joined text exactly
    when it occurs in one of them. *)
Theorem X7_occurrences_add_up_over_messages :
  forall (messages : list Message) (needle : string),
    inLine needle = true ->
    occurrences (userText messages) needle
    = list_sum (map (fun line => occurrences line needle) (userLines messages))
    /\ includes (userText messages) needle
       = existsb (fun line => includes line needle) (userLines messages).
Proof.
  intros messages needle H. split.
  - rewrite occurrences_literal. unfold userText. fold (userLines messages).
    rewrite (countMatches_join_lines needle _ H). f_equal.
    apply map_ext. intros line. now rewrite occurrences_literal.
  - unfold userText. fold (userLines messages). now apply includes_join_lines.
Qed.

Lemma X7_witness :
  occurrences (userText [{| role := user; content := "Zen, very zen" |};
                         {| role := assistant; content := "zen?" |};
                         {| role := user; content := "ZEN" |}]) "zen"
  = list_sum (map (fun line => occurrences line "zen")
                  (userLines [{| role := user; content := "Zen, very zen" |};
                              {| role := assistant; content := "zen?" |};
                              {| role := user; content := "ZEN" |}])).
Proof.
  apply (X7_occurrences_add_up_over_messages
           [{| role := user; content := "Zen, very zen" |};
            {| role := assistant; content := "zen?" |};
            {| role := user; content := "ZEN" |}] "zen").
  reflexivity.
Defined.

(* ------------------------------------------------------------------ *)
(** ** Completion, message by message *)

Lemma existsb_swap {A B : Type} (p : A -> B -> bool) (l : list A) (l' : list B) :
  existsb (fun x => existsb (p x) l') l = existsb (fun y => existsb (fun x => p x y) l) l'.
Proof.
  induction l as [|x l IH]; cbn [existsb].
  - induction l' as [|y l' IH']; [reflexivity | cbn [existsb]; now rewrite <- IH'].
  - rewrite IH. clear IH. induction l' as [|y l' IH']; [reflexivity|].
    cbn [existsb]. rewrite <- IH'.
    destruct (p x y), (existsb (p x) l'), (existsb (fun x0 => p x0 y) l); reflexivity.
Qed.

Lemma existsb_ext_in {A : Type} (f g : A -> bool) (l : list A) :
  (forall x, In x l -> f x = g x) -> existsb f l = existsb g l.
Proof.
  induction l as [|x l IH]; intros H; [reflexivity|]. cbn [existsb].
  rewrite (H x) by now left. rewrite IH; [reflexivity|].
  intros y Hy. apply H. now right.
Qed.

(** An alternation of phrases without line breaks is tested line by line. *)
Lemma testAny_join_lines (alts parts : list string) :
  forallb inLine alts = true ->
  testAny alts (join newline parts) = existsb (testAny alts) parts.
Proof.
  intros H. unfold testAny.
  rewrite (existsb_swap includes parts alts).
  apply existsb_ext_in. intros w Hw.
  apply includes_join_lines. now apply (proj1 (forallb_forall _ _) H).
Qed.

Lemma existsb_userLines (p : string -> bool) (messages : list Message) :
  existsb p (userLines messages)
  = existsb (fun m => isUser m && p (toLowerCase (content m))) messages.
Proof.
  unfold userLines. induction messages as [|m messages IH]; [reflexivity|].
  cbn [filter existsb]. destruct (isUser m); cbn [map existsb andb]; now rewrite IH.
Qed.

(** X8.  What runAgent answers: it is done exactly when one single user
    message holds an end phrase (in any letter case) or the asked-key set
    has six names or more; when done it returns the summary of the
    analysis and no question, otherwise one of the eight question texts,
    which is not empty, and no summary. *)
Theorem X8_runAgent_answer :
  forall messages : list Message,
    done (runAgent messages)
    = existsb (fun m => isUser m && testAny END_PHRASES (toLowerCase (content m))) messages
      || (6 <=? SSet.size (getAskedKeys messages))%nat
    /\ (if done (runAgent messages)
        then summary (runAgent messages) = Some (synthesizeSummary (analyze messages))
             /\ nextQuestion (runAgent messages) = None
        else summary (runAgent messages) = None
             /\ exists k, nextQuestion (runAgent messages) = Some (text (QUESTIONS k))
                          /\ text (QUESTIONS k) <> "").
Proof.
  intros messages. split.
  - rewrite runAgent_done. unfold doneBySignal, doneByCoverage, userText.
    fold (userLines messages).
    rewrite testAny_join_lines by reflexivity. now rewrite existsb_userLines.
  - destruct (done (runAgent messages)) eqn:D.
    + destruct (proj1 (runAgent_shape messages) D) as [H1 H2]. now split.
    + destruct (proj2 (runAgent_shape messages) D) as [H1 H2]. split; [exact H2|].
      exists (chooseNextKey (getAskedKeys messages) (analyze messages)).
      split; [exact H1|].
      destruct (chooseNextKey (getAskedKeys messages) (analyze messages)); discriminate.
Qed.

(* ------------------------------------------------------------------ *)
(** ** Style scores, message by message *)

Lemma list_sum_map_add {A : Type} (f g : A -> nat) (l : list A) :
  list_sum (map (fun x => f x + g x) l) = list_sum (map f l) + list_sum (map g l).
Proof. induction l as [|x l IH]; simpl; [reflexivity | rewrite IH; lia]. Qed.

Lemma list_sum_swap {A B : Type} (f : A -> B -> nat) (l : list A) (l' : list B) :
  list_sum (map (fun x => list_sum (map (f x) l')) l)
  = list_sum (map (fun y => list_sum (map (fun x => f x y) l)) l').
Proof.
  induction l as [|x l IH].
  - induction l' as [|y l' IH']; simpl in *; [reflexivity | exact IH'].
  - change (list_sum (map (f x) l')
            + list_sum (map (fun x0 => list_sum (map (f x0) l')) l)
            = list_sum (map (fun y => f x y + list_sum (map (fun x0 => f x0 y) l)) l')).
    rewrite IH, list_sum_map_add. reflexivity.
Qed.

Lemma list_sum_ext_in {A : Type} (f g : A -> nat) (l : list A) :
  (forall x, In x l -> f x = g x) -> list_sum (map f l) = list_sum (map g l).
Proof.
  intros H. f_equal. apply map_ext_in. exact H.
Qed.

Lemma keywordHits_join_lines (words parts : list string) :
  forallb inLine words = true ->
  keywordHits (join newline parts) words
  = list_sum (map (fun part => keywordHits part words) parts).
Proof.
  intros H. unfold keywordHits.
  rewrite <- (list_sum_swap (fun w part => countMatches w 0 part) words parts).
  apply list_sum_ext_in. intros w Hw.
  apply countMatches_join_lines. now apply (proj1 (forallb_forall _ _) H).
Qed.

Lemma scoreStyles_join_lines (parts : list string) :
  scoreStyles (join newline parts)
  = map (fun entry =>
           (fst entry, list_sum (map (fun line => keywordHits line (snd entry)) parts)))
        STYLE_KEYWORDS.
Proof.
  rewrite scoreStyles_sums.
  apply map_ext_in. intros entry Hin. f_equal.
  apply keywordHits_join_lines.
  assert (A : forallb (fun e => forallb inLine (snd e)) STYLE_KEYWORDS = true)
    by reflexivity.
  exact (proj1 (forallb_forall _ _) A entry Hin).
Qed.

(** X9.  Style scores add up over the user's messages: the score of each
    style is the sum, over the lowercased user messages, of the keyword
    hits in that message; a keyword is never matched across two
    messages. *)
Theorem X9_style_scores_add_up_over_messages :
  forall messages : list Message,
    styles (analyze messages)
    = map (fun entry =>
             (fst entry,
              list_sum (map (fun line => keywordHits line (snd entry))
                            (userLines messages))))
          STYLE_KEYWORDS.
Proof.
  intros messages. unfold analyze. cbn [styles].
  unfold userText. fold (userLines messages). apply scoreStyles_join_lines.
Qed.

(* ------------------------------------------------------------------ *)
(** ** The fields of the Analysis *)

Lemma distinct_NoDup (l : list string) : distinct l = true -> NoDup l.
Proof.
  induction l as [|x l IH]; intros H; [constructor|].
  cbn [distinct] in H. apply andb_true_iff in H. destruct H as [Hx Hl].
  constructor; [|now apply IH].
  apply negb_true_iff in Hx. intros Hin.
  assert (E : inList x l = true).
  { unfold inList. apply existsb_exists. exists x. split; [assumption | apply String.eqb_refl]. }
  rewrite E in Hx. discriminate Hx.
Qed.

Lemma collectWords_from (text : string) (words : list string) :
  forall acc : SSet.t,
    NoDup (map cap words) ->
    (forall w, In w words -> ~ In (cap w) acc) ->
    fold_left (fun acc w => if includes text w then SSet.add acc (cap w) else acc)
              words acc
    = (acc ++ map cap (filter (includes text) words))%list.
Proof.
  induction words as [|w words IH]; intros acc Hnd Hacc; cbn [fold_left filter map].
  - now rewrite app_nil_r.
  - cbn [map] in Hnd. inversion Hnd as [|? ? Hw Hnd']; subst.
    destruct (includes text w).
    + rewrite add_new.
      * rewrite IH; [cbn [map]; now rewrite <- app_assoc | assumption |].
        intros w' Hw' Hin. apply in_app_or in Hin. destruct Hin as [Hin | [E | []]].
        -- apply (Hacc w'); [now right | assumption].
        -- apply Hw. rewrite E. now apply in_map.
      * destruct (SSet.has acc (cap w)) eqn:E; [|reflexivity].
        apply has_In in E. exfalso. apply (Hacc w); [now left | assumption].
    + apply IH; [assumption|]. intros w' Hw'. apply Hacc. now right.
Qed.

Lemma collectWords_filter (words : list string) (text : string) :
  distinct (map cap words) = true ->
  collectWords words text = map cap (filter (includes text) words).
Proof.
  intros H. unfold collectWords.
  rewrite collectWords_from; [reflexivity | now apply distinct_NoDup | intros w _ []].
Qed.

(** X10.  Mood, usage and constraint words: each set holds the
    capitalised words of its table that occur in the user text, each
    once, in the order of the table (not in the order the user wrote
    them). *)
Theorem X10_word_sets_follow_the_tables :
  forall messages : list Message,
    let text := userText messages in
    mood (analyze messages) = map cap (filter (includes text) MOOD_WORDS)
    /\ usage (analyze messages) = map cap (filter (includes text) USAGE_WORDS)
    /\ constraints (analyze messages) = map cap (filter (includes text) CONSTRAINT_WORDS).
Proof.
  intros messages text. unfold analyze. cbn [mood usage constraints]. fold text.
  repeat split; now apply collectWords_filter.
Qed.

Lemma likes_mentions (text : string) (syns : list string) :
  likes text syns = mentions text syns.
Proof.
  unfold likes, mentions. apply existsb_ext_in. intros w _.
  destruct (includes text w) eqn:E; [now rewrite !orb_true_r|].
  rewrite orb_false_r.
  destruct (includes text ("love " ++ w)) eqn:E1.
  - rewrite (includes_trans _ _ _ E1 (includes_suffix "love " w)) in E. discriminate E.
  - destruct (includes text ("like " ++ w)) eqn:E2; [|reflexivity].
    rewrite (includes_trans _ _ _ E2 (includes_suffix "like " w)) in E. discriminate E.
Qed.

Lemma detectPlants_from (text : string) (table : list (string * list string)) :
  forall acc : list string * list string,
    fold_left
      (fun acc entry =>
         let liked := if likes text (snd entry)
                      then (fst acc ++ [cap (fst entry)])%list else fst acc in
         let disliked := if dislikes text (snd entry)
                         then (snd acc ++ [cap (fst entry)])%list else snd acc in
         (liked, disliked)) table acc
    = ((fst acc ++ map plantName (filter (fun e => mentions text (snd e)) table))%list,
       (snd acc ++ map plantName (filter (fun e => dislikes text (snd e)) table))%list).
Proof.
  induction table as [|e table IH]; intros [l d]; cbn [fold_left filter map fst snd].
  - now rewrite !app_nil_r.
  - rewrite IH. cbn [fst snd]. rewrite likes_mentions.
    destruct (mentions text (snd e)), (dislikes text (snd e)); cbn [map];
      rewrite <- ?app_assoc; reflexivity.
Qed.

(** X11.  Liked and disliked plants: a plant is liked exactly when one of
    its synonyms occurs anywhere in the user text (the words "love" and
    "like" make no difference), and disliked exactly when a synonym
    follows "dislike ", "hate " or "avoid "; both lists are in the order
    of PLANT_SYNONYMS. *)
Theorem X11_plants_follow_the_table :
  forall messages : list Message,
    let text := userText messages in
    likedPlants (analyze messages)
    = map plantName (filter (fun e => mentions text (snd e)) PLANT_SYNONYMS)
    /\ dislikedPlants (analyze messages)
       = map plantName (filter (fun e => dislikes text (snd e)) PLANT_SYNONYMS).
Proof.
  intros messages text. unfold analyze. cbn [likedPlants dislikedPlants]. fold text.
  unfold detectPlants. rewrite detectPlants_from. split; reflexivity.
Qed.

Lemma includes_not_part (t m n : string) :
  includes t n = false -> includes m n = true -> includes t m = false.
Proof.
  intros Hn Hm. destruct (includes t m) eqn:E; [|reflexivity].
  rewrite (includes_trans _ _ _ E Hm) in Hn. discriminate Hn.
Qed.

Lemma detectSunlight_decision (text : string) :
  detectSunlight text =
  if includes text "shade" then Some "shade"
  else if includes text "dappled" then Some "partial shade"
  else if includes text "sunny" || includes text "lots of sun" || includes text "full sun"
       then Some "full sun"
  else None.
Proof.
  unfold detectSunlight, SUN_MAP. cbn [fold_left fst snd].
  destruct (includes text "shade") eqn:Hs; [reflexivity|].
  rewrite (includes_not_part text "mostly shade" "shade" Hs eq_refl).
  rewrite (includes_not_part text "part shade" "shade" Hs eq_refl).
  rewrite (includes_not_part text "partial shade" "shade" Hs eq_refl).
  destruct (includes text "dappled"); [reflexivity|].
  destruct (includes text "sunny"); [reflexivity|].
  destruct (includes text "lots of sun"); [reflexivity|].
  destruct (includes text "full sun"); reflexivity.
Qed.

(** X12.  The sunlight level as a decision list: "shade" when the text
    holds "shade" at all, else "partial shade" when it holds "dappled",
    else "full sun" when it holds "sunny", "lots of sun" or "full sun",
    else null.  So a user who writes "partial shade" or "part shade" gets
    the level "shade". *)
Theorem X12_sunlight_decision_list :
  forall messages : list Message,
    let text := userText messages in
    sunlight (analyze messages) =
      (if includes text "shade" then Some "shade"
       else if includes text "dappled" then Some "partial shade"
       else if includes text "sunny" || includes text "lots of sun"
               || includes text "full sun"
            then Some "full sun"
       else None)
    /\ (includes text "partial shade" = true \/ includes text "part shade" = true ->
        sunlight (analyze messages) = Some "shade").
Proof.
  intros messages text. unfold analyze. cbn [sunlight]. fold text.
  rewrite detectSunlight_decision. split; [reflexivity|].
  intros H.
  assert (Hs : includes text "shade" = true).
  { destruct H as [H | H]; (eapply includes_trans; [exact H | reflexivity]). }
  now rewrite Hs.
Qed.

Lemma X12_witness :
  sunlight (analyze [{| role := user; content := "Partial shade under the oak" |}])
  = Some "shade".
Proof.
  apply (X12_sunlight_decision_list
           [{| role := user; content := "Partial shade under the oak" |}]).
  left. reflexivity.
Defined.

Lemma detectClimate_decision (text : string) :
  detectClimate text =
  if testAny ["cold"; "alpine"; "snow"] text then Some "cold"
  else if testAny ["temperate"; "mild"] text then Some "temperate"
  else if testAny ["tropical"; "humid"; "rainforest"] text then Some "tropical"
  else if testAny ["desert"; "arid"; "drought"] text then Some "desert"
  else if testAny ["coastal"; "salt"; "ocean"] text then Some "coastal"
  else None.
Proof.
  unfold detectClimate, CLIMATE_WORDS, testAny. cbn [fold_left fst snd].
  destruct (existsb (includes text) ["cold"; "alpine"; "snow"]); [reflexivity|].
  destruct (existsb (includes text) ["temperate"; "mild"]); [reflexivity|].
  destruct (existsb (includes text) ["tropical"; "humid"; "rainforest"]); [reflexivity|].
  destruct (existsb (includes text) ["desert"; "arid"; "drought"]); [reflexivity|].
  destruct (existsb (includes text) ["coastal"; "salt"; "ocean"]); reflexivity.
Qed.

Lemma falsy_null (x : option string) (vocabulary : list (option string)) :
  In x vocabulary -> ~ In (Some "") vocabulary ->
  (falsy x = true <-> x = None).
Proof.
  intros Hin Hne. split; [|now intros ->].
  destruct x as [s|]; [|reflexivity]. cbn [falsy]. intros E.
  apply String.eqb_eq in E. subst s. contradiction.
Qed.

(** X13.  The climate as a decision list: the categories later in
    CLIMATE_WORDS win, so the climate is "cold" when a cold word occurs,
    else "temperate", else "tropical", else "desert", else "coastal",
    else null. *)
Theorem X13_climate_decision_list :
  forall messages : list Message,
    let text := userText messages in
    climate (analyze messages) =
      if testAny ["cold"; "alpine"; "snow"] text then Some "cold"
      else if testAny ["temperate"; "mild"] text then Some "temperate"
      else if testAny ["tropical"; "humid"; "rainforest"] text then Some "tropical"
      else if testAny ["desert"; "arid"; "drought"] text then Some "desert"
      else if testAny ["coastal"; "salt"; "ocean"] text then Some "coastal"
      else None.
Proof.
  intros messages text. unfold analyze. cbn [climate]. fold text.
  apply detectClimate_decision.
Qed.

(** X14.  The three levels come from fixed vocabularies and are never the
    empty string, so the need flags of chooseNextKey ([!a.sunlight] and
    the like) are true exactly for null. *)
Theorem X14_levels_are_from_fixed_vocabularies :
  forall messages : list Message,
    let a := analyze messages in
    In (maintenance a) [None; Some "low"; Some "medium"; Some "high"]
    /\ In (sunlight a) [None; Some "full sun"; Some "partial shade"; Some "shade"]
    /\ In (climate a) [None; Some "coastal"; Some "desert"; Some "tropical";
                       Some "temperate"; Some "cold"]
    /\ (falsy (maintenance a) = true <-> maintenance a = None)
    /\ (falsy (sunlight a) = true <-> sunlight a = None)
    /\ (falsy (climate a) = true <-> climate a = None).
Proof.
  intros messages a.
  assert (M : In (maintenance a) [None; Some "low"; Some "medium"; Some "high"]).
  { subst a. unfold analyze. cbn [maintenance]. unfold detectMaintenance.
    repeat match goal with
           | |- context [if ?b then _ else _] => destruct b
           end; simpl; tauto. }
  assert (S : In (sunlight a) [None; Some "full sun"; Some "partial shade"; Some "shade"]).
  { subst a. unfold analyze. cbn [sunlight]. rewrite detectSunlight_decision.
    repeat match goal with
           | |- context [if ?b then _ else _] => destruct b
           end; simpl; tauto. }
  assert (C : In (climate a) [None; Some "coastal"; Some "desert"; Some "tropical";
                              Some "temperate"; Some "cold"]).
  { subst a. unfold analyze. cbn [climate]. rewrite detectClimate_decision.
    repeat match goal with
           | |- context [if ?b then _ else _] => destruct b
           end; simpl; tauto. }
  split; [exact M|]. split; [exact S|]. split; [exact C|].
  split; [|split];
    (eapply falsy_null; [eassumption|]);
    simpl; intros H; repeat (destruct H as [H | H]; [discriminate H|]); exact H.
Qed.

(* ------------------------------------------------------------------ *)
(** ** The Analysis and the order of the messages *)

Lemma filter_ext_in' {A : Type} (f g : A -> bool) (l : list A) :
  (forall x, In x l -> f x = g x) -> filter f l = filter g l.
Proof.
  induction l as [|x l IH]; intros H; [reflexivity|]. cbn [filter].
  rewrite (H x) by now left. rewrite IH; [reflexivity|].
  intros y Hy. apply H. now right.
Qed.

Lemma all_of {A : Type} (p : A -> bool) (l : list A) (x : A) :
  forallb p l = true -> In x l -> p x = true.
Proof. intros H. now apply forallb_forall. Qed.

Section SameSignals.

Variables text1 text2 : string.
Hypothesis same : sameSignals text1 text2.

Lemma same_includes (w : string) : inLine w = true -> includes text1 w = includes text2 w.
Proof. intros H. exact (proj1 (same w H)). Qed.

Lemma same_testAny (alts : list string) :
  forallb inLine alts = true -> testAny alts text1 = testAny alts text2.
Proof.
  intros H. unfold testAny. apply existsb_ext_in. intros w Hw.
  apply same_includes. exact (all_of _ _ _ H Hw).
Qed.

Lemma same_collectWords (words : list string) :
  distinct (map cap words) = true -> forallb inLine words = true ->
  collectWords words text1 = collectWords words text2.
Proof.
  intros Hd Hl. rewrite !collectWords_filter by exact Hd. f_equal.
  apply filter_ext_in'. intros w Hw. apply same_includes. exact (all_of _ _ _ Hl Hw).
Qed.

Lemma same_scoreStyles : scoreStyles text1 = scoreStyles text2.
Proof.
  rewrite !scoreStyles_sums. apply map_ext_in. intros entry Hin. f_equal.
  unfold keywordHits. apply list_sum_ext_in. intros w Hw.
  assert (A : forallb (fun e => forallb inLine (snd e)) STYLE_KEYWORDS = true)
    by reflexivity.
  exact (proj2 (same w (all_of _ _ _ (all_of _ _ _ A Hin) Hw))).
Qed.

Lemma same_detectPlants :
  detectPlants PLANT_SYNONYMS text1 = detectPlants PLANT_SYNONYMS text2.
Proof.
  unfold detectPlants. rewrite !detectPlants_from. cbn [fst snd app].
  assert (A : forallb (fun e => forallb (fun w => inLine w && inLine ("dislike " ++ w)
                                              && inLine ("hate " ++ w)
                                              && inLine ("avoid " ++ w)) (snd e))
                      PLANT_SYNONYMS = true) by reflexivity.
  f_equal; f_equal; apply filter_ext_in'; intros e He;
    pose proof (all_of _ _ _ A He) as Ae.
  - unfold mentions. apply existsb_ext_in. intros w Hw.
    pose proof (all_of _ _ _ Ae Hw) as Aw. cbv beta in Aw.
    rewrite !andb_true_iff in Aw. apply same_includes. tauto.
  - unfold dislikes. apply existsb_ext_in. intros w Hw.
    pose proof (all_of _ _ _ Ae Hw) as Aw. cbv beta in Aw.
    rewrite !andb_true_iff in Aw. destruct Aw as [[[A1 A2] A3] A4].
    now rewrite (same_includes _ A2), (same_includes _ A3), (same_includes _ A4).
Qed.

Lemma same_detectSunlight : detectSunlight text1 = detectSunlight text2.
Proof.
  rewrite !detectSunlight_decision.
  now rewrite (same_includes "shade"), (same_includes "dappled"),
    (same_includes "sunny"), (same_includes "lots of sun"),
    (same_includes "full sun") by reflexivity.
Qed.

Lemma same_detectClimate : detectClimate text1 = detectClimate text2.
Proof.
  rewrite !detectClimate_decision.
  now rewrite (same_testAny ["cold"; "alpine"; "snow"]),
    (same_testAny ["temperate"; "mild"]),
    (same_testAny ["tropical"; "humid"; "rainforest"]),
    (same_testAny ["desert"; "arid"; "drought"]),
    (same_testAny ["coastal"; "salt"; "ocean"]) by reflexivity.
Qed.

Lemma same_detectMaintenance : detectMaintenance text1 = detectMaintenance text2.
Proof.
  unfold detectMaintenance.
  now rewrite (same_testAny ["low maintenance"; "minimal maintenance";
                             "no maintenance"; "low upkeep"]),
    (same_testAny ["medium maintenance"; "some upkeep"]),
    (same_testAny ["high maintenance"; "intensive maintenance"; "love gardening"])
    by reflexivity.
Qed.

End SameSignals.

Lemma analyze_same_signals (messages1 messages2 : list Message) :
  sameSignals (userText messages1) (userText messages2) ->
  analyze messages1 = analyze messages2.
Proof.
  intros H. unfold analyze.
  rewrite (same_scoreStyles _ _ H), (same_detectPlants _ _ H),
    (same_detectSunlight _ _ H), (same_detectClimate _ _ H),
    (same_detectMaintenance _ _ H),
    (same_collectWords _ _ H MOOD_WORDS eq_refl eq_refl),
    (same_collectWords _ _ H USAGE_WORDS eq_refl eq_refl),
    (same_collectWords _ _ H CONSTRAINT_WORDS eq_refl eq_refl),
    (same_testAny _ _ H ["kid"; "child"; "children"; "pet"; "dog"; "cat"] eq_refl).
  reflexivity.
Qed.

Lemma existsb_Permutation {A : Type} (p : A -> bool) (l l' : list A) :
  Permutation l l' -> existsb p l = existsb p l'.
Proof.
  intros H. induction H as [| x l l' _ IH | x y l | l l' l'' _ IH1 _ IH2];
    cbn [existsb].
  - reflexivity.
  - now rewrite IH.
  - destruct (p x), (p y); reflexivity.
  - now rewrite IH1.
Qed.

Lemma list_sum_Permutation (l l' : list nat) :
  Permutation l l' -> list_sum l = list_sum l'.
Proof.
  intros H. induction H as [| x l l' _ IH | x y l | l l' l'' _ IH1 _ IH2];
    simpl in *; lia.
Qed.

(** X15.  The Analysis does not depend on the order of the user's
    messages: two message lists whose user messages have the same contents
    up to reordering get the same Analysis. *)
Theorem X15_analyze_ignores_message_order :
  forall messages1 messages2 : list Message,
    Permutation (map content (filter isUser messages1))
                (map content (filter isUser messages2)) ->
    analyze messages1 = analyze messages2.
Proof.
  intros messages1 messages2 H. apply analyze_same_signals.
  assert (P : Permutation (userLines messages1) (userLines messages2)).
  { unfold userLines. rewrite <- !(map_map content toLowerCase).
    now apply Permutation_map. }
  intros w Hw. unfold userText. fold (userLines messages1) (userLines messages2).
  rewrite !(includes_join_lines w _ Hw), !(countMatches_join_lines w _ Hw). split.
  - now apply existsb_Permutation.
  - apply list_sum_Permutation. now apply Permutation_map.
Qed.

Lemma X15_witness :
  analyze [{| role := user; content := "zen and calm" |};
           {| role := assistant; content := "Q-sun: sunlight?" |};
           {| role := user; content := "mostly shade" |}]
  = analyze [{| role := user; content := "mostly shade" |};
             {| role := user; content := "zen and calm" |}].
Proof.
  apply (X15_analyze_ignores_message_order
           [{| role := user; content := "zen and calm" |};
            {| role := assistant; content := "Q-sun: sunlight?" |};
            {| role := user; content := "mostly shade" |}]
           [{| role := user; content := "mostly shade" |};
            {| role := user; content := "zen and calm" |}]).
  simpl. apply perm_swap.
Defined.

(* ------------------------------------------------------------------ *)
(** ** Signals are kept by later messages *)

Lemma includes_empty_needle (s : string) : includes s "" = true.
Proof. destruct s; reflexivity. Qed.

Lemma includes_userText_app (messages extra : list Message) (w : string) :
  includes (userText messages) w = true ->
  includes (userText (messages ++ extra)) w = true.
Proof.
  unfold userText. rewrite filter_app, map_app.
  destruct (map (fun m => toLowerCase (content m)) (filter isUser messages))
    as [|x parts] eqn:E.
  - intros H. apply includes_empty in H. subst w. apply includes_empty_needle.
  - destruct (join_app_prefix newline (x :: parts)
                (map (fun m => toLowerCase (content m)) (filter isUser extra)))
      as [r Hr]; [discriminate|].
    rewrite Hr. apply includes_app_l.
Qed.

Lemma existsb_includes_app (messages extra : list Message) (f : string -> string)
      (l : list string) :
  existsb (fun w => includes (userText messages) (f w)) l = true ->
  existsb (fun w => includes (userText (messages ++ extra)) (f w)) l = true.
Proof.
  rewrite !existsb_exists. intros [w [Hw H]]. exists w. split; [assumption|].
  now apply includes_userText_app.
Qed.

Lemma filter_incl_mono {A : Type} (p q : A -> bool) (l : list A) :
  (forall x, p x = true -> q x = true) -> incl (filter p l) (filter q l).
Proof.
  intros H x Hx. apply filter_In in Hx. apply filter_In.
  destruct Hx as [Hin Hp]. split; [assumption | now apply H].
Qed.

Lemma Forall2_map_both {A B : Type} (R : B -> B -> Prop) (f g : A -> B) (l : list A) :
  (forall x, In x l -> R (f x) (g x)) -> Forall2 R (map f l) (map g l).
Proof.
  induction l as [|x l IH]; intros H; cbn [map]; constructor.
  - apply H. now left.
  - apply IH. intros y Hy. apply H. now right.
Qed.

(** X16.  Later messages keep the signals found so far: after more
    messages are appended no style score is lower, every mood, usage and
    constraint word and every liked or disliked plant is still there, and
    the kids-or-pets flag stays set.  (Maintenance, sunlight and climate
    may change.) *)
Theorem X16_signals_are_kept :
  forall messages extra : list Message,
    let a := analyze messages in
    let a' := analyze (messages ++ extra) in
    Forall2 (fun e e' => fst e = fst e' /\ snd e <= snd e') (styles a) (styles a')
    /\ incl (mood a) (mood a')
    /\ incl (usage a) (usage a')
    /\ incl (constraints a) (constraints a')
    /\ incl (likedPlants a) (likedPlants a')
    /\ incl (dislikedPlants a) (dislikedPlants a')
    /\ (hasKidsOrPets a = true -> hasKidsOrPets a' = true).
Proof.
  intros messages extra a a'. subst a a'. unfold analyze.
  cbn [styles mood usage constraints likedPlants dislikedPlants hasKidsOrPets].
  assert (W : forall words,
             distinct (map cap words) = true ->
             incl (collectWords words (userText messages))
                  (collectWords words (userText (messages ++ extra)))).
  { intros words Hd. rewrite !collectWords_filter by exact Hd.
    apply incl_map, filter_incl_mono. intros w. apply includes_userText_app. }
  split; [|split; [|split; [|split; [|split; [|split]]]]].
  - unfold userText. rewrite filter_app, map_app, !scoreStyles_join_lines.
    apply Forall2_map_both. intros entry _. cbn [fst snd]. split; [reflexivity|].
    rewrite map_app, list_sum_app. lia.
  - now apply W.
  - now apply W.
  - now apply W.
  - unfold detectPlants. rewrite !detectPlants_from. cbn [fst app].
    apply incl_map, filter_incl_mono. intros e. unfold mentions.
    apply (existsb_includes_app messages extra (fun w => w)).
  - unfold detectPlants. rewrite !detectPlants_from. cbn [snd app].
    apply incl_map, filter_incl_mono. intros e. unfold dislikes.
    rewrite !existsb_exists. intros [w [Hw H]]. exists w. split; [assumption|].
    rewrite !orb_true_iff in *.
    destruct H as [[H | H] | H]; [left; left | left; right | right];
      now apply includes_userText_app.
  - unfold testAny. apply (existsb_includes_app messages extra (fun w => w)).
Qed.

Lemma X16_witness :
  hasKidsOrPets (analyze ([{| role := user; content := "we have a dog" |}]
                          ++ [{| role := user; content := "and full sun" |}])) = true.
Proof.
  apply (X16_signals_are_kept [{| role := user; content := "we have a dog" |}]
                              [{| role := user; content := "and full sun" |}]).
  reflexivity.
Defined.

(* ------------------------------------------------------------------ *)
(** ** The lists of the summary *)

Lemma addAll_NoDup (values : list string) :
  forall items : SSet.t, NoDup items -> NoDup (addAll items values).
Proof.
  unfold addAll. induction values as [|v values IH]; intros items H; [assumption|].
  cbn [fold_left]. now apply IH, add_NoDup.
Qed.

Lemma deleteAll_NoDup (removed : list string) :
  forall items : SSet.t, NoDup items -> NoDup (fold_left SSet.delete removed items).
Proof.
  induction removed as [|d removed IH]; intros items H; [assumption|].
  cbn [fold_left]. apply IH. unfold SSet.delete. now apply filter_NoDup.
Qed.

Lemma fold_addAll_NoDup {A : Type} (g : A -> list string) (l : list A) :
  forall items : SSet.t,
    NoDup items -> NoDup (fold_left (fun items x => addAll items (g x)) l items).
Proof.
  induction l as [|x l IH]; intros items H; [assumption|].
  cbn [fold_left]. now apply IH, addAll_NoDup.
Qed.

Lemma fold_addAll_In {A : Type} (g : A -> list string) (l : list A) :
  forall (items : SSet.t) (e : string),
    In e (fold_left (fun items x => addAll items (g x)) l items)
    <-> In e items \/ exists x, In x l /\ In e (g x).
Proof.
  induction l as [|x l IH]; intros items e; cbn [fold_left].
  - split; [now left | intros [H | [x [[] _]]]; assumption].
  - rewrite IH, addAll_In. split.
    + intros [[H | H] | [y [Hy H]]]; [now left | right; exists x | right; exists y];
        split; auto; now (left + right).
    + intros [H | [y [[<- | Hy] H]]]; [left; now left | left; now right |].
      right. exists y. now split.
Qed.

Lemma buildPalette_NoDup (selected : list string) (a : Analysis) :
  NoDup (buildPalette selected a).
Proof.
  unfold buildPalette. apply deleteAll_NoDup.
  do 2 apply addAll_NoDup. apply fold_addAll_NoDup. constructor.
Qed.

Lemma buildFeatures_NoDup (selected : list string) (a : Analysis) :
  NoDup (buildFeatures selected a).
Proof.
  unfold buildFeatures. cbv zeta.
  match goal with
  | |- NoDup (if _ then fold_left _ _ ?v else _) =>
      assert (H : NoDup v) by (apply addAll_NoDup; constructor);
      generalize dependent v
  end.
  intros items H.
  destruct (existsb _ (usage a)); [|assumption].
  now apply fold_addAll_NoDup.
Qed.

Lemma buildUsage_NoDup (a : Analysis) : NoDup (buildUsage a).
Proof.
  unfold buildUsage. cbv zeta.
  match goal with
  | |- NoDup (match ?o with [] => _ | _ :: _ => _ end) =>
      assert (H : NoDup o)
        by (destruct (hasKidsOrPets a); [apply add_NoDup|]; apply addAll_NoDup; constructor);
      destruct o
  end.
  - apply add_NoDup. constructor.
  - exact H.
Qed.

Lemma collectWords_NoDup (words : list string) (text : string) :
  NoDup (collectWords words text).
Proof.
  unfold collectWords. generalize (NoDup_nil string). generalize (@nil string).
  induction words as [|w words IH]; intros acc H; [assumption|].
  cbn [fold_left]. apply IH. destruct (includes text w); [now apply add_NoDup | assumption].
Qed.

Lemma insertByScore_Permutation (x : string * nat) (l : list (string * nat)) :
  Permutation (insertByScore x l) (x :: l).
Proof.
  induction l as [|y l IH]; [reflexivity|]. cbn [insertByScore].
  destruct (snd x <? snd y)%nat; [|reflexivity].
  rewrite IH. apply perm_swap.
Qed.

Lemma sortByScore_Permutation (entries : list (string * nat)) :
  Permutation (sortByScore entries) entries.
Proof.
  unfold sortByScore. induction entries as [|x entries IH]; [reflexivity|].
  cbn [fold_right]. rewrite insertByScore_Permutation. now constructor.
Qed.

(** Dropping entries keeps the style names apart. *)
Lemma filter_keeps_names_apart (keep : string * nat -> bool)
      (entries : list (string * nat)) :
  NoDup (map fst entries) -> NoDup (map fst (filter keep entries)).
Proof.
  intros H. induction entries as [|e entries IH]; [constructor|].
  cbn [map] in H. inversion H as [|? ? He Hrest]; subst. cbn [filter].
  destruct (keep e); [|now apply IH]. cbn [map]. constructor; [|now apply IH].
  intros Hin. apply He. apply in_map_iff in Hin. destruct Hin as [e' [E He']].
  apply filter_In in He'. apply in_map_iff. exists e'. tauto.
Qed.

Lemma NoDup_firstn {A : Type} (n : nat) (l : list A) : NoDup l -> NoDup (firstn n l).
Proof.
  revert l. induction n as [|n IH]; intros l H; [constructor|].
  destruct l as [|x l]; [constructor|]. inversion H as [|? ? Hx Hl]; subst.
  cbn [firstn]. constructor; [|now apply IH].
  intros Hin. apply Hx. rewrite <- (firstn_skipn n l). apply in_or_app. now left.
Qed.

Lemma topStyles_NoDup (a : Analysis) :
  NoDup (map fst (styles a)) -> NoDup (topStyles a).
Proof.
  intros H. unfold topStyles. rewrite <- firstn_map. apply NoDup_firstn.
  apply filter_keeps_names_apart.
  apply (Permutation_NoDup (l := map fst (styles a))); [|assumption].
  apply Permutation_map, Permutation_sym, sortByScore_Permutation.
Qed.

Lemma analyze_style_names (messages : list Message) :
  map fst (styles (analyze messages)) = map fst STYLE_KEYWORDS.
Proof.
  unfold analyze. cbn [styles]. now rewrite scoreStyles_sums, map_map.
Qed.

(** X17.  The five lists of a summary built from a conversation have no
    repeated entry (the page uses the entries as keys of the list items
    it renders). *)
Theorem X17_summary_lists_have_no_repeats :
  forall messages : list Message,
    let s := synthesizeSummary (analyze messages) in
    NoDup (Summary.styles s)
    /\ NoDup (Summary.moodWords s)
    /\ NoDup (Summary.plantPalette s)
    /\ NoDup (Summary.features s)
    /\ NoDup (Summary.usagePlan s).
Proof.
  intros messages s. subst s. unfold synthesizeSummary.
  cbn [Summary.styles Summary.moodWords Summary.plantPalette Summary.features
       Summary.usagePlan].
  split; [|split; [|split; [|split]]].
  - assert (T : NoDup (topStyles (analyze messages))).
    { apply topStyles_NoDup. rewrite analyze_style_names.
      now apply distinct_NoDup. }
    destruct (topStyles (analyze messages)); [|exact T].
    constructor; [intros [] | constructor].
  - assert (M : NoDup (mood (analyze messages))) by apply collectWords_NoDup.
    destruct (mood (analyze messages)); [|exact M].
    now apply distinct_NoDup.
  - apply buildPalette_NoDup.
  - apply buildFeatures_NoDup.
  - apply buildUsage_NoDup.
Qed.

(** X18.  A summary is never bare: it names one or two styles, and its
    mood words and its usage plan are not empty, whatever the Analysis. *)
Theorem X18_summary_is_never_bare :
  forall a : Analysis,
    let s := synthesizeSummary a in
    1 <= List.length (Summary.styles s) <= 2
    /\ Summary.moodWords s <> []
    /\ Summary.usagePlan s <> [].
Proof.
  intros a s. subst s. unfold synthesizeSummary.
  cbn [Summary.styles Summary.moodWords Summary.usagePlan].
  split; [|split].
  - assert (L : List.length (topStyles a) <= 2)
      by (unfold topStyles; rewrite length_map, length_firstn; lia).
    destruct (topStyles a); simpl in *; lia.
  - destruct (mood a); discriminate.
  - unfold buildUsage. cbv zeta.
    match goal with
    | |- match ?o with [] => _ | _ :: _ => _ end <> [] => destruct o; discriminate
    end.
Qed.

(** X19.  With no user message there is nothing to build on: the summary
    is the plain one (the label "Contemporary Natural", which has no
    palette and no features of its own, "Calm" and "Welcoming", the
    default usage line, nothing else), and that is what runAgent returns
    when such a history is complete. *)
Theorem X19_summary_without_user_messages :
  forall messages : list Message,
    filter isUser messages = [] ->
    synthesizeSummary (analyze messages) = plainSummary
    /\ (done (runAgent messages) = true ->
        summary (runAgent messages) = Some plainSummary).
Proof.
  intros messages H.
  assert (E : synthesizeSummary (analyze messages) = plainSummary)
    by (rewrite (analyze_no_user messages H); reflexivity).
  split; [exact E|]. intros D.
  destruct (proj1 (runAgent_shape messages) D) as [Hs _]. now rewrite Hs, E.
Qed.

Lemma X19_witness :
  summary (runAgent (map (fun k => {| role := assistant; content := text (QUESTIONS k) |})
                         [Kplants; Ksun; Kmaintenance; Kclimate; Kfeels; Kstyle]))
  = Some plainSummary.
Proof.
  apply (X19_summary_without_user_messages
           (map (fun k => {| role := assistant; content := text (QUESTIONS k) |})
                [Kplants; Ksun; Kmaintenance; Kclimate; Kfeels; Kstyle]));
    reflexivity.
Defined.

(* ------------------------------------------------------------------ *)
(** ** Usage plan and features *)

Lemma when_In (b : bool) (v x : string) : In x (when b v) <-> b = true /\ x = v.
Proof.
  unfold when. destruct b; simpl; split.
  - intros [<- | []]. now split.
  - intros [_ ->]. now left.
  - intros [].
  - intros [H _]. discriminate H.
Qed.

Lemma buildUsage_In (a : Analysis) (u : string) :
  In u (buildUsage a) <->
  In u (usage a)
  \/ (hasKidsOrPets a = true /\ u = "Safe play and pet circulation considered")
  \/ (usage a = [] /\ hasKidsOrPets a = false
      /\ u = "Relaxation and light entertaining").
Proof.
  unfold buildUsage. cbv zeta.
  assert (U : forall x, In x (addAll [] (usage a)) <-> In x (usage a)).
  { intros x. rewrite addAll_In. simpl. tauto. }
  destruct (hasKidsOrPets a).
  - assert (O : forall x, In x (SSet.add (addAll [] (usage a))
                                         "Safe play and pet circulation considered")
                          <-> In x (usage a)
                              \/ x = "Safe play and pet circulation considered").
    { intros x. now rewrite add_In, U. }
    destruct (SSet.add (addAll [] (usage a)) "Safe play and pet circulation considered")
      as [|y out].
    + exfalso. apply (proj2 (O "Safe play and pet circulation considered")). now right.
    + rewrite O. split.
      * intros [H | H]; [now left | right; left; now split].
      * intros [H | [[_ H] | [_ [H _]]]]; [now left | now right | discriminate H].
  - destruct (addAll [] (usage a)) as [|y out] eqn:E.
    + assert (N : usage a = []).
      { destruct (usage a) as [|x l]; [reflexivity|].
        exfalso. apply (proj2 (U x)). now left. }
      rewrite N. unfold SSet.add. cbn [SSet.has existsb app]. simpl. split.
      * intros [<- | []]. right. right. repeat split.
      * intros [[] | [[H _] | [_ [_ ->]]]]; [discriminate H | now left].
    + rewrite U. split.
      * intros H. now left.
      * intros [H | [[H _] | [N _]]]; [assumption | discriminate H|].
        exfalso. rewrite N in E. discriminate E.
Qed.

(** X20.  The usage plan holds the matched usage words, then the
    safe-play line when the kids-or-pets flag is set, and the default line
    "Relaxation and light entertaining" only when there is neither. *)
Theorem X20_usage_plan_entries :
  forall (a : Analysis) (u : string),
    In u (buildUsage a) <->
    In u (usage a)
    \/ (hasKidsOrPets a = true /\ u = "Safe play and pet circulation considered")
    \/ (usage a = [] /\ hasKidsOrPets a = false
        /\ u = "Relaxation and light entertaining").
Proof.
  intros a u. apply buildUsage_In.
Qed.

(** X21.  The raised-beds feature needs two things: some usage word must
    pass the outer test of buildFeatures (which knows "food" and
    "vegetable" but not "veggie"), and some usage word must pass the inner
    test for food, vegetable or veggie.  So a usage set holding "Veggie"
    alone gets no raised beds. *)
Theorem X21_raised_beds_need_the_outer_test :
  forall (selected : list string) (a : Analysis),
    (In "Compact raised beds for edibles" (buildFeatures selected a) <->
     existsb (fun u => testAny ["entertain"; "dining"; "bbq"; "grill"; "firepit";
                                "hot tub"; "pool"; "reading"; "quiet"; "food";
                                "vegetable"] (toLowerCase u)) (usage a) = true
     /\ exists u, In u (usage a)
                  /\ testAny ["food"; "vegetable"; "veggie"] (toLowerCase u) = true)
    /\ (usage a = ["Veggie"] ->
        ~ In "Compact raised beds for edibles" (buildFeatures selected a)).
Proof.
  intros selected a.
  assert (Main :
    In "Compact raised beds for edibles" (buildFeatures selected a) <->
    existsb (fun u => testAny ["entertain"; "dining"; "bbq"; "grill"; "firepit";
                               "hot tub"; "pool"; "reading"; "quiet"; "food";
                               "vegetable"] (toLowerCase u)) (usage a) = true
    /\ exists u, In u (usage a)
                 /\ testAny ["food"; "vegetable"; "veggie"] (toLowerCase u) = true).
  { unfold buildFeatures. cbv zeta.
    match goal with
    | |- In _ (if _ then fold_left _ _ ?v else _) <-> _ =>
        assert (N : ~ In "Compact raised beds for edibles" v);
        [|generalize dependent v]
    end.
    { rewrite addAll_In, !in_app_iff, !when_In. simpl.
      intros H. repeat (destruct H as [H | H]); try contradiction;
        destruct H as [_ H]; discriminate H. }
    intros items N.
    destruct (existsb _ (usage a)).
    - match goal with
      | |- context [fold_left (fun items u => addAll items (@?g u)) _ _] =>
          rewrite (fold_addAll_In g)
      end.
      split.
      + intros [H | [u [Hu H]]]; [contradiction|]. split; [reflexivity|].
        exists u. split; [assumption|].
        rewrite !in_app_iff, !when_In in H.
        repeat (destruct H as [H | H]); destruct H as [H E]; try discriminate E.
        exact H.
      + intros [_ [u [Hu H]]]. right. exists u. split; [assumption|].
        rewrite !in_app_iff, !when_In. repeat right. now split.
    - split; [contradiction | intros [H _]; discriminate H]. }
  split; [exact Main|].
  intros E H. apply Main in H. destruct H as [H _]. rewrite E in H.
  vm_compute in H. discriminate H.
Qed.

Lemma X21_witness :
  ~ In "Compact raised beds for edibles"
       (buildFeatures ["Contemporary Natural"]
                      (analyze [{| role := user; content := "a veggie patch" |}])).
Proof.
  apply (proj2 (X21_raised_beds_need_the_outer_test
                  ["Contemporary Natural"]
                  (analyze [{| role := user; content := "a veggie patch" |}]))).
  reflexivity.
Defined.

(* ------------------------------------------------------------------ *)
(** ** Selected styles *)

Lemma list_sum_pos (l : list nat) : 0 < list_sum l -> exists n, In n l /\ 0 < n.
Proof.
  induction l as [|x l IH]; simpl; [lia|]. intros H.
  destruct x as [|x].
  - destruct (IH H) as [n [Hn Hp]]. exists n. split; [now right | assumption].
  - exists (S x). split; [now left | lia].
Qed.

Lemma analyze_styles (messages : list Message) :
  styles (analyze messages) = scoreStyles (userText messages).
Proof. reflexivity. Qed.

Lemma topStyles_positive (a : Analysis) (name : string) :
  In name (topStyles a) -> exists score, In (name, score) (styles a) /\ 0 < score.
Proof.
  unfold topStyles. generalize (styles a). intros entries Hin.
  apply (proj1 (in_map_iff _ _ _)) in Hin.
  destruct Hin as [[name' score] [E Hin]]. cbn [fst] in E. subst name'.
  assert (Hin' : In (name, score)
                    (filter (fun e => (0 <? snd e)%nat) (sortByScore entries))).
  { rewrite <- (firstn_skipn 2 (filter _ _)). apply in_or_app. now left. }
  apply (proj1 (filter_In _ _ _)) in Hin'. destruct Hin' as [Hs Hpos].
  apply Nat.ltb_lt in Hpos. cbn [snd] in Hpos.
  exists score. split; [|exact Hpos].
  exact (Permutation_in _ (sortByScore_Permutation entries) Hs).
Qed.

Lemma scored_style_has_keyword (text name : string) (score : nat) :
  In (name, score) (scoreStyles text) -> 0 < score ->
  exists words w, In (name, words) STYLE_KEYWORDS /\ In w words
                  /\ includes text w = true.
Proof.
  rewrite scoreStyles_sums. generalize STYLE_KEYWORDS. intros table Hs Hpos.
  apply (proj1 (in_map_iff _ _ _)) in Hs. destruct Hs as [[name' words] [E Hentry]].
  cbn [fst snd] in E. injection E as -> <-.
  unfold keywordHits in Hpos. apply list_sum_pos in Hpos.
  destruct Hpos as [n [Hn Hp]]. apply (proj1 (in_map_iff _ _ _)) in Hn.
  destruct Hn as [w [<- Hw]]. exists words, w. repeat split; try assumption.
  now apply countMatches_pos.
Qed.

(** X22.  A style of STYLE_KEYWORDS is named in the summary only when one
    of its keywords occurs in the user text; with no keyword at all the
    summary names "Contemporary Natural". *)
Theorem X22_selected_style_has_a_keyword :
  forall (messages : list Message) (name : string),
    In name (Summary.styles (synthesizeSummary (analyze messages))) ->
    name = "Contemporary Natural"
    \/ exists words w, In (name, words) STYLE_KEYWORDS /\ In w words
                       /\ includes (userText messages) w = true.
Proof.
  intros messages name. unfold synthesizeSummary. cbn [Summary.styles].
  assert (T : In name (topStyles (analyze messages)) ->
              exists words w, In (name, words) STYLE_KEYWORDS /\ In w words
                              /\ includes (userText messages) w = true).
  { intros Hin. destruct (topStyles_positive _ _ Hin) as [score [Hs Hpos]].
    rewrite analyze_styles in Hs.
    exact (scored_style_has_keyword (userText messages) name score Hs Hpos). }
  destruct (topStyles (analyze messages)) as [|x l].
  - intros [<- | []]. now left.
  - intros H. right. now apply T.
Qed.

Lemma X22_witness :
  "Japanese Zen" = "Contemporary Natural"
  \/ exists words w, In ("Japanese Zen", words) STYLE_KEYWORDS /\ In w words
                     /\ includes (userText [{| role := user; content := "Moss and stone" |}]) w
                        = true.
Proof.
  apply (X22_selected_style_has_a_keyword
           [{| role := user; content := "Moss and stone" |}] "Japanese Zen").
  vm_compute. left. reflexivity.
Defined.

(* ------------------------------------------------------------------ *)
(** ** Kids and pets *)

Lemma buildFeatures_kids (selected : list string) (a : Analysis) :
  hasKidsOrPets a = true ->
  In "Durable lawn alternative and pet-safe, kid-friendly plants"
     (buildFeatures selected a).
Proof.
  intros K. unfold buildFeatures. cbv zeta.
  match goal with
  | |- In _ (if _ then fold_left _ _ ?v else _) =>
      assert (N : In "Durable lawn alternative and pet-safe, kid-friendly plants" v);
      [|generalize dependent v]
  end.
  { rewrite addAll_In, !in_app_iff, !when_In. right. repeat right. now split. }
  intros items N. destruct (existsb _ (usage a)); [|assumption].
  match goal with
  | |- context [fold_left (fun items u => addAll items (@?g u)) _ _] =>
      rewrite (fold_addAll_In g)
  end.
  now left.
Qed.

(** X23.  Kids and pets: when the usage set of a conversation holds
    "Kids", "Children", "Pets", "Dog" or "Cat", the kids-or-pets flag is
    set; and whenever the flag is set the summary has the safe-play line
    in its usage plan and the durable-lawn feature. *)
Theorem X23_kids_and_pets :
  forall messages : list Message,
    let a := analyze messages in
    ((exists u, In u (usage a) /\ In u ["Kids"; "Children"; "Pets"; "Dog"; "Cat"]) ->
     hasKidsOrPets a = true)
    /\ (hasKidsOrPets a = true ->
        In "Safe play and pet circulation considered"
           (Summary.usagePlan (synthesizeSummary a))
        /\ In "Durable lawn alternative and pet-safe, kid-friendly plants"
              (Summary.features (synthesizeSummary a))).
Proof.
  intros messages a. split.
  - intros [u [Hu Hk]]. subst a. unfold analyze in *. cbn [usage hasKidsOrPets] in *.
    rewrite collectWords_filter in Hu by reflexivity.
    apply (proj1 (in_map_iff _ _ _)) in Hu. destruct Hu as [w [E Hw]].
    apply (proj1 (filter_In _ _ _)) in Hw. destruct Hw as [Hw Hinc]. subst u.
    unfold testAny. apply existsb_exists.
    unfold USAGE_WORDS in Hw. simpl in Hw, Hk.
    repeat (destruct Hw as [Hw | Hw];
            [subst w;
             try (exfalso; repeat (destruct Hk as [Hk | Hk]; [discriminate Hk|]);
                  exact Hk);
             first [ exists "kid"; split; [simpl; tauto|];
                     apply (includes_trans _ _ _ Hinc); reflexivity
                   | exists "child"; split; [simpl; tauto|];
                     apply (includes_trans _ _ _ Hinc); reflexivity
                   | exists "pet"; split; [simpl; tauto|];
                     apply (includes_trans _ _ _ Hinc); reflexivity
                   | exists "dog"; split; [simpl; tauto|];
                     apply (includes_trans _ _ _ Hinc); reflexivity
                   | exists "cat"; split; [simpl; tauto|];
                     apply (includes_trans _ _ _ Hinc); reflexivity ]
            |]).
    destruct Hw.
  - intros K. unfold synthesizeSummary. cbn [Summary.usagePlan Summary.features].
    split.
    + apply (proj2 (buildUsage_In _ _)). right. left. now split.
    + now apply buildFeatures_kids.
Qed.

Lemma X23_witness :
  hasKidsOrPets (analyze [{| role := user; content := "Room for the children" |}]) = true.
Proof.
  apply (proj1 (X23_kids_and_pets
                  [{| role := user; content := "Room for the children" |}])).
  exists "Children". split; vm_compute; tauto.
Defined.

(* ------------------------------------------------------------------ *)
(** ** The tag of a question *)

Lemma span_run (p : ascii -> bool) (k : string) (c : ascii) (rest : string) :
  allChars p k = true -> p c = false ->
  span p (k ++ String c rest) = (k, String c rest).
Proof.
  intros Hk Hc. induction k as [|x k IH]; cbn [append span].
  - now rewrite Hc.
  - cbn [allChars] in Hk. apply andb_true_iff in Hk. destruct Hk as [Hx Hk].
    now rewrite Hx, (IH Hk).
Qed.

Lemma span_parts (p : ascii -> bool) (s : string) :
  forall k r, span p s = (k, r) -> s = k ++ r /\ allChars p k = true.
Proof.
  induction s as [|x s IH]; intros k r; cbn [span].
  - intros E. injection E as <- <-. now split.
  - destruct (p x) eqn:Hx.
    + destruct (span p s) as [k' r'] eqn:Es. intros E. injection E as <- <-.
      destruct (IH k' r' eq_refl) as [-> Hk]. split; [reflexivity|].
      cbn [allChars]. now rewrite Hx, Hk.
    + intros E. injection E as <- <-. now split.
Qed.

(** X24.  The tag pattern [^Q-(\w+):] read both ways: a message that is
    "Q-", a run of word characters that is not empty, ":" and anything
    gives that run as the key; and a key is found only in a message of
    that form, so a tag that is not at the very start of the message, has
    no key or lacks the colon is not seen. *)
Theorem X24_tag_pattern :
  (forall k rest : string,
     k <> "" -> allChars isWordChar k = true ->
     matchQTag ("Q-" ++ k ++ ":" ++ rest) = Some k)
  /\ (forall s k : string,
        matchQTag s = Some k ->
        k <> "" /\ allChars isWordChar k = true
        /\ exists rest, s = "Q-" ++ k ++ ":" ++ rest).
Proof.
  split.
  - intros k rest Hne Hk. unfold matchQTag.
    change (startsWith ("Q-" ++ k ++ ":" ++ rest) "Q-") with true.
    change (drop 2 ("Q-" ++ k ++ ":" ++ rest)) with (k ++ String ":" rest).
    rewrite (span_run isWordChar k ":" rest Hk eq_refl).
    destruct k; [contradiction | reflexivity].
  - intros s k. unfold matchQTag.
    destruct (startsWith s "Q-") eqn:Hq; [|discriminate].
    apply startsWith_spec in Hq. destruct Hq as [s' ->].
    change (drop 2 ("Q-" ++ s')) with s'.
    destruct (span isWordChar s') as [k' r] eqn:Es.
    destruct (span_parts _ _ _ _ Es) as [-> Hk].
    destruct k' as [|x k']; [discriminate|].
    destruct (startsWith r ":") eqn:Hc; [|discriminate].
    intros E. injection E as <-.
    apply startsWith_spec in Hc. destruct Hc as [rest ->].
    split; [discriminate|]. split; [exact Hk|]. now exists rest.
Qed.

Lemma X24_witness :
  matchQTag ("Q-" ++ "sun" ++ ":" ++ " how much sun?") = Some "sun"
  /\ exists rest, "Q-use: How?" = "Q-" ++ "use" ++ ":" ++ rest.
Proof.
  split.
  - apply (proj1 X24_tag_pattern "sun" " how much sun?"); [discriminate | reflexivity].
  - apply (proj2 X24_tag_pattern "Q-use: How?" "use"). reflexivity.
Defined.
